(** * transformers-practice: data utilities and training agent

    A shallow embedding of the parts of [src/ctg/data/utils.py] and
    [tod/src/tod/train/train.py] that carry the behaviour of the
    repository: the decoder-input shift [right_shift], the label masking
    of [load_seq2seq_data], the vocabulary extension, and the epoch loop
    of [TrainingAgent].

    Python code is embedded in a state-and-exception monad: a computation
    takes the current state (the tensor store, the tokenizer, the log of
    calls made on collaborators) and gives back either a value or the
    exception that was raised, together with the state reached. An
    exception does not roll the state back, as in Python. *)

From Stdlib Require Import ZArith Ascii String.
From stdpp Require Import base gmap strings list fin_maps sorting.

Local Open Scope string_scope.
Local Open Scope list_scope.
Local Open Scope Z_scope.

(** ** Python exceptions and the monad *)

Module Py.

Inductive exn :=
| AssertionError (msg : string)
| IndexError (msg : string)
| ValueError (args : list string)
| NameError (name : string)
| UnboundLocalError (name : string)
| AttributeError (name : string)
| TypeError (msg : string)
| KeyError (key : string)
| FileNotFoundError
| RuntimeError (msg : string).

Inductive res (A : Type) :=
| Ok (a : A)
| Raise (e : exn).
Arguments Ok {A} a.
Arguments Raise {A} e.

Definition M (S A : Type) : Type := S → res A * S.

Definition ret {S A} (a : A) : M S A := λ σ, (Ok a, σ).

Definition raise {S A} (e : exn) : M S A := λ σ, (Raise e, σ).

Definition bind {S A B} (m : M S A) (k : A → M S B) : M S B :=
  λ σ, match m σ with
       | (Ok a, σ') => k a σ'
       | (Raise e, σ') => (Raise e, σ')
       end.

Definition get {S} : M S S := λ σ, (Ok σ, σ).
Definition modify {S} (f : S → S) : M S unit := λ σ, (Ok tt, f σ).

End Py.

Export Py.

#[global] Instance M_ret {S} : MRet (M S) := λ A, @Py.ret S A.
#[global] Instance M_bind {S} : MBind (M S) := λ A B k m, Py.bind m k.

(** ** Integer tensors of rank two, held in a store

    A tensor object has a shape and its rows of values; the element
    type is the 64-bit integer ([torch.long]), the type of token ids.
    Python variables hold references: [loc] names a tensor object of the
    store, and two variables may name the same object. *)

Module Tensor.

Record tensor := mk_tensor {
  shape : nat * nat;
  rows : list (list Z)
}.

Definition nrows (t : tensor) : nat := (shape t).1.
Definition ncols (t : tensor) : nat := (shape t).2.

(** The rows agree with the shape (every tensor of the library does). *)
Definition wf (t : tensor) : Prop :=
  length (rows t) = nrows t ∧ Forall (λ r, length r = ncols t) (rows t).

(** [t[r, i]] *)
Definition at_ (t : tensor) (r i : nat) : option Z :=
  rows t !! r ≫= λ row, row !! i.

Definition loc := positive.
Abbreviation store := (gmap loc tensor).

Definition deref (l : loc) : M store tensor :=
  λ σ, match σ !! l with
       | Some t => (Ok t, σ)
       | None => (Raise (RuntimeError "no such object"), σ)
       end.

Definition alloc (t : tensor) : M store loc :=
  λ σ, let l := fresh (dom σ) in (Ok l, <[l:=t]> σ).

Definition store_at (l : loc) (t : tensor) : M store unit :=
  Py.modify (λ σ : store, <[l:=t]> σ).

(** [x.new_zeros(x.shape)]: a new object, same shape, all zero. *)
Definition new_zeros (x : loc) : M store loc :=
  t ← deref x;
  alloc (mk_tensor (shape t) (replicate (nrows t) (replicate (ncols t) 0))).

(** [x[..., :-1]]: the value seen through the view that drops the last
    column. The view shares the storage of [x]; it is only read here. *)
Definition getitem_but_last (x : loc) : M store tensor :=
  t ← deref x;
  mret (mk_tensor (nrows t, (ncols t - 1)%nat)
                  (fmap (λ r, take (length r - 1) r) (rows t))).

(** [v.clone()]: a new object with the values of [v]. *)
Definition clone (v : tensor) : M store loc := alloc v.

(** [x[..., 1:] = y]: writes [y] over the columns of [x] from 1 on. *)
Definition setitem_from_1 (x y : loc) : M store unit :=
  t ← deref x;
  s ← deref y;
  if decide (shape s = (nrows t, (ncols t - 1)%nat)) then
    store_at x (mk_tensor (shape t)
                          (zip_with (λ r q, take 1 r ++ q) (rows t) (rows s)))
  else
    raise (RuntimeError "shape mismatch").

(** The values a tensor of 64-bit integers can hold, and the error of
    the library when a Python integer handed to it as a scalar is not
    one of them. *)
Definition int64 (v : Z) : Prop := - 2 ^ 63 ≤ v < 2 ^ 63.

#[global] Instance int64_dec (v : Z) : Decision (int64 v).
Proof. unfold int64. apply _. Defined.

Definition overflow : string := "Overflow when unpacking long".

Definition index_0_out_of_bounds : string :=
  "index 0 is out of bounds for dimension 1 with size 0".

(** [x[..., 0] = v]: the scalar [v] is converted to the element type
    first, then index 0 must exist along the last axis. *)
Definition setitem_0 (x : loc) (v : Z) : M store unit :=
  t ← deref x;
  if decide (int64 v) then
    if decide (ncols t = 0%nat) then
      raise (IndexError index_0_out_of_bounds)
    else
      store_at x (mk_tensor (shape t) (fmap (λ r, <[0%nat:=v]> r) (rows t)))
  else raise (RuntimeError overflow).

(** [x == v] and [x >= v]: a mask of the shape of [x]. *)
Definition mask_of (test : Z → bool) (t : tensor) : list (list bool) :=
  fmap (λ r : list Z, fmap test r) (rows t).

Definition eq_scalar (x : loc) (v : Z) : M store (list (list bool)) :=
  t ← deref x; mret (mask_of (λ a, bool_decide (a = v)) t).

Definition ge_scalar (x : loc) (v : Z) : M store (list (list bool)) :=
  t ← deref x; mret (mask_of (λ a, bool_decide (v ≤ a)) t).

(** [x.masked_fill_(mask, v)]: in place, [v] wherever the mask is set;
    the scalar [v] is converted when the arguments are read, whatever
    the mask holds. *)
Definition masked_fill_ (x : loc) (mask : list (list bool)) (v : Z)
  : M store unit :=
  t ← deref x;
  if decide (int64 v) then
    store_at x (mk_tensor (shape t)
      (zip_with (zip_with (λ a (b : bool), if b then v else a)) (rows t) mask))
  else raise (RuntimeError overflow).

(** [torch.all(mask).item()] *)
Definition all (mask : list (list bool)) : bool :=
  forallb (forallb id) mask.

End Tensor.

(** ** [right_shift] (src/ctg/data/utils.py, lines 25-41) *)

Module RightShift.
Import Tensor.

Definition pad_undefined : string :=
  "self.model.config.pad_token_id has to be defined.".
Definition only_positive : string :=
  "Verify that `shifted_input_ids` has only positive values".

Definition right_shift (start_token_id : Z) (pad_token_id : option Z)
    (input_ids : loc) : M store loc :=
  shifted_input_ids ← new_zeros input_ids;
  v ← getitem_but_last input_ids;
  c ← clone v;
  setitem_from_1 shifted_input_ids c;;
  setitem_0 shifted_input_ids start_token_id;;
  match pad_token_id with
  | None => raise (AssertionError pad_undefined)
  | Some pad =>
      mask ← eq_scalar shifted_input_ids (-100);
      masked_fill_ shifted_input_ids mask pad;;
      nonneg ← ge_scalar shifted_input_ids 0;
      if all nonneg then mret shifted_input_ids
      else raise (AssertionError only_positive)
  end.

(** What the replacement of line 36 leaves where [v] stood. *)
Definition fill (pad v : Z) : Z := if decide (v = -100) then pad else v.

(** The tensors the call goes through: the zero grid of line 29, the
    copy of line 30, and the grid after each of the three writes. *)
Definition zeros (g : tensor) : tensor :=
  mk_tensor (shape g) (replicate (nrows g) (replicate (ncols g) 0)).
Definition but_last (g : tensor) : tensor :=
  mk_tensor (nrows g, (ncols g - 1)%nat)
            (fmap (λ r, take (length r - 1) r) (rows g)).
Definition after_shift (g : tensor) : tensor :=
  mk_tensor (shape g)
    (zip_with (λ r q, take 1 r ++ q) (rows (zeros g)) (rows (but_last g))).
Definition after_start (s : Z) (g : tensor) : tensor :=
  mk_tensor (shape g) (fmap (λ r, <[0%nat:=s]> r) (rows (after_shift g))).
Definition after_fill (s pad : Z) (g : tensor) : tensor :=
  mk_tensor (shape g)
    (zip_with (zip_with (λ a (b : bool), if b then pad else a))
       (rows (after_start s g))
       (mask_of (λ a, bool_decide (a = -100)) (after_start s g))).

(** [torch.tensor(rows)], and a call of [right_shift] on a store that
    holds its argument and nothing else; the tensor that comes back is
    read at the reference returned. *)
Definition grid (rs : list (list Z)) : tensor :=
  mk_tensor (length rs, length (default [] (head rs))) rs.

Definition right_shift_of (start_token_id : Z) (pad_token_id : option Z)
    (input_ids : tensor) : res tensor :=
  match right_shift start_token_id pad_token_id 1%positive
                    {[1%positive := input_ids]} with
  | (Ok l, σ) => match σ !! l with
                 | Some t => Ok t
                 | None => Raise (RuntimeError "no such object")
                 end
  | (Raise e, _) => Raise e
  end.

End RightShift.

(** ** Exceptions without state: the monad of [res] *)

#[global] Instance res_ret : MRet res := λ A a, Ok a.
#[global] Instance res_bind : MBind res :=
  λ A B k r, match r with Ok a => k a | Raise e => Raise e end.

(** ** Paths and text files (pathlib, [open]) *)

Module Files.

(** A [PosixPath] as its components; the last one is the file name. *)
Definition PosixPath := list string.

Definition name (p : PosixPath) : string := default "" (last p).

(** Index of the last occurrence of [c] in [s] ([str.rfind]). *)
Fixpoint rfind (c : ascii) (s : string) : option nat :=
  match s with
  | EmptyString => None
  | String a s' =>
      match rfind c s' with
      | Some i => Some (S i)
      | None => if decide (a = c) then Some 0%nat else None
      end
  end.

(** [PurePath.suffix]: the last dot of the name starts the suffix,
    unless it opens or closes the name. *)
Definition suffix (p : PosixPath) : string :=
  match rfind "."%char (name p) with
  | Some i =>
      if decide (0 < i < String.length (name p) - 1)%nat
      then String.substring i (String.length (name p) - i) (name p)
      else ""
  | None => ""
  end.

(** [str(p)], as an f-string prints a path: the components joined by
    slashes, after the root if the path has one; the empty path reads
    as a dot. *)
Definition str (p : PosixPath) : string :=
  match p with
  | [] => "."
  | root :: rest =>
      if String.eqb root "/" then "/" +:+ String.concat "/" rest
      else String.concat "/" p
  end.

(** The file system: the text of each existing file, as it is stored. *)
Abbreviation fs := (gmap PosixPath string).

Definition exists_ (disk : fs) (p : PosixPath) : bool :=
  bool_decide (is_Some (disk !! p)).

(** The line feed and the carriage return. *)
Definition LF : ascii := "010"%char.
Definition CR : ascii := "013"%char.

(** Text mode reads with universal newlines: a carriage return, alone
    or followed by a line feed, is read as one line feed. *)
Fixpoint universal_newlines (s : string) : string :=
  match s with
  | EmptyString => ""
  | String c s' =>
      if decide (c = CR) then
        String LF
          match s' with
          | String c' s'' =>
              if decide (c' = LF) then universal_newlines s''
              else universal_newlines s'
          | EmptyString => universal_newlines s'
          end
      else String c (universal_newlines s')
  end.

(** [open(p)] and [p.open('r')]: a text file object, held as the text
    that reading it gives; [f.read()] is that text. *)
Definition open_ (disk : fs) (p : PosixPath) : res string :=
  match disk !! p with
  | Some text => Ok (universal_newlines text)
  | None => Raise FileNotFoundError
  end.

(** [f.readlines()] on a text file object: the lines in order, each
    with the line feed that ends it. The text is the one [open_] gives,
    in which every line end has been read as a line feed. *)
Fixpoint readlines_go (cur : string) (s : string) : list string :=
  match s with
  | EmptyString => if decide (cur = "") then [] else [String.rev cur]
  | String c s' =>
      if decide (c = "010"%char)
      then String.rev (String c cur) :: readlines_go "" s'
      else readlines_go (String c cur) s'
  end.

Definition readlines (s : string) : list string := readlines_go "" s.

(** [str.isspace] on one character of the ASCII range. *)
Definition isspace (c : ascii) : bool :=
  let n := nat_of_ascii c in
  bool_decide (9 ≤ n ≤ 13)%nat || bool_decide (28 ≤ n ≤ 32)%nat.

Fixpoint lstrip (s : string) : string :=
  match s with
  | EmptyString => ""
  | String c s' => if isspace c then lstrip s' else s
  end.

(** [str.strip()] *)
Definition strip (s : string) : string :=
  String.rev (lstrip (String.rev (lstrip s))).

End Files.

(** ** [extend_vocabulary] (src/ctg/data/utils.py, lines 72-77)

    The tokenizer belongs to an external library; the state kept of it is
    the sequence of lists its [add_tokens] has received. The
    [ValueError] raised here is the error the specification calls
    [InvalidInputError]. *)

Module Vocabulary.
Import Files.

Record tokenizer := mk_tokenizer {
  add_tokens_calls : list (list string)
}.

Definition add_tokens (vocab : list string) : M tokenizer unit :=
  Py.modify (λ t, mk_tokenizer (add_tokens_calls t ++ [vocab])).

(** The two arguments of the [ValueError] of lines 74-75. *)
Definition unknown_src_file (fname : PosixPath) : list string :=
  ["Unknown src file " +:+ str fname +:+ ". Files must be";
   " .txt line by line files"].

Definition extend_vocabulary (disk : fs) (fname : PosixPath)
  : M tokenizer unit :=
  if negb (bool_decide (suffix fname ∈ [".txt"]))
     || negb (exists_ disk fname)
  then raise (ValueError (unknown_src_file fname))
  else
    match open_ disk fname with
    | Raise e => raise e
    | Ok f =>
        let vocab := map strip (readlines f) in
        add_tokens vocab
    end.

(** [read_lines] (lines 170-173), the sibling reader of line files. *)
Definition split_newline (s : string) : list string :=
  (fix go (cur : string) (s : string) : list string :=
     match s with
     | EmptyString => [String.rev cur]
     | String c s' =>
         if decide (c = "010"%char) then String.rev cur :: go "" s'
         else go (String c cur) s'
     end) "" s.

Definition str_isspace (s : string) : bool :=
  negb (bool_decide (s = ""))
  && forallb isspace (list_ascii_of_string s).

Definition read_lines (disk : fs) (filename : PosixPath)
  : res (list string) :=
  text ← open_ disk filename;
  let lines := split_newline (strip text) in
  mret (filter (λ line, (0 < String.length line)%nat
                        ∧ str_isspace line = false) lines).

(** A vocabulary file for the examples: the lines [a], an empty line,
    and [b]. *)
Definition nl : string := String "010"%char "".

Definition vocab_txt : PosixPath := ["data"; "vocab.txt"].

Definition disk_with_blank_line : fs :=
  {[ vocab_txt := "a" +:+ nl +:+ nl +:+ "b" +:+ nl ]}.



End Vocabulary.

(** ** [load_seq2seq_data] (src/ctg/data/utils.py, lines 80-167)

    The subword tokenizer, the dataset library and the collators are
    external collaborators: the tokenizer is a record of what the code
    asks of it, the dataset operations are taken as they come. *)

Module Seq2Seq.
Import Files.

(** A [BatchEncoding]: field name to a grid of token ids. *)
Abbreviation encoding := (gmap string (list (list Z))).

Inductive padding := max_length | no_padding.

Record tokenizer := mk_tokenizer {
  pad_token_id : option Z;
  (** [tokenizer(texts, padding=.., max_length=.., truncation=True)];
      the flag tells whether the call is made inside
      [as_target_tokenizer()]. *)
  call : bool → list string → padding → Z → encoding
}.

Definition getitem {V} (d : gmap string V) (key : string) : res V :=
  match d !! key with
  | Some v => Ok v
  | None => Raise (KeyError key)
  end.

(** The label sentinel, "a specific number for masking". *)
Definition sentinel : Z := -100.

Section load_seq2seq_data.
Context {Model Dataset : Type}.
(** Arguments of [load_seq2seq_data]. *)
Variables (fname : PosixPath) (tok : tokenizer)
          (max_src_length max_tgt_length : Z)
          (pad_to_max_length : bool) (batch_size : Z)
          (max_samples : Z) (ignore_pad_for_loss : bool)
          (split prefix : string).
(** The dataset library: [load_dataset], [len], [select(range(n))] and
    [map(f, batched=True, ..)]; each of the calls may raise. *)
Variables (load_dataset : PosixPath → string → res Dataset)
          (len : Dataset → res Z)
          (select_range : Z → Dataset → res Dataset)
          (map_batched : (gmap string (list string) → res encoding) →
                         Dataset → res Dataset).
(** The names bound in the module at the time of the call. The source
    file binds no name [model]: the parameter of that name is
    commented out (line 83). *)
Variable globals : gmap string Model.

Definition padding_arg : padding :=
  if pad_to_max_length then max_length else no_padding.

(** Lines 109-135. *)
Definition preprocess (examples : gmap string (list string))
  : res encoding :=
  inputs ← getitem examples "source";
  let inputs := map (λ i, prefix +:+ i) inputs in
  let inputs := call tok false inputs padding_arg max_src_length in
  targets ← getitem examples "target";
  let targets := call tok true targets padding_arg max_tgt_length in
  targets ←
    (if pad_to_max_length && ignore_pad_for_loss then
       ids ← getitem targets "input_ids";
       mret (<["input_ids" :=
                map (λ label,
                       map (λ _label,
                              if decide (Some _label ≠ pad_token_id tok)
                              then _label else sentinel) label) ids]>
               targets)
     else mret targets);
  labels ← getitem targets "input_ids";
  mret (<["labels" := labels]> inputs).

Inductive collator :=
| default_data_collator
| DataCollatorForSeq2Seq (tokenizer_ : tokenizer) (model : Model)
                         (label_pad_token_id : option Z).

Definition global_name (x : string) : res Model :=
  match globals !! x with
  | Some v => Ok v
  | None => Raise (NameError x)
  end.

(** Lines 159-166. *)
Definition select_collator : res collator :=
  if pad_to_max_length then mret default_data_collator
  else
    model ← global_name "model";
    mret (DataCollatorForSeq2Seq tok model
            (if ignore_pad_for_loss then Some sentinel
             else pad_token_id tok)).

(** The two arguments of the [ValueError] of lines 97-98. *)
Definition unknown_json_file : list string :=
  ["Unknown src file " +:+ str fname +:+ ". Files must be";
   " .json files"].

Definition load_seq2seq_data (disk : fs) : res Dataset :=
  if negb (bool_decide (suffix fname ∈ [".json"]))
     || negb (exists_ disk fname)
  then Raise (ValueError unknown_json_file)
  else
    dataset ← load_dataset fname split;
    dataset ←
      (if bool_decide (0 < max_samples)
       then n ← len dataset;
            select_range (Z.min max_samples n) dataset
       else mret dataset);
    dataset ← map_batched preprocess dataset;
    collator ← select_collator;
    mret dataset.

End load_seq2seq_data.

(** [t[i][j]] in a grid of token ids. *)
Definition token (ids : list (list Z)) (i j : nat) : option Z :=
  ids !! i ≫= λ row, row !! j.

(** A tokenizer for the examples: pad id 0, and every batch of texts
    encoded as the one padded row [3, 4, 0, 0]. *)
Definition toy_tokenizer : tokenizer :=
  mk_tokenizer (Some 0)
    (λ _ _ _ _, {[ "input_ids" := [[3; 4; 0; 0]];
                   "attention_mask" := [[1; 1; 0; 0]] ]}).

Definition toy_examples : gmap string (list string) :=
  {[ "source" := ["hello"]; "target" := ["bonjour"] ]}.

(** A dataset library for the examples: a dataset is the list of its
    record numbers, every file loads as three records, and [map] gives
    the dataset back. *)
Definition toy_load_dataset (fname : PosixPath) (split : string)
  : res (list nat) := Ok [1%nat; 2%nat; 3%nat].
Definition toy_len (d : list nat) : res Z := Ok (Z.of_nat (length d)).
Definition toy_select_range (n : Z) (d : list nat) : res (list nat) :=
  Ok (take (Z.to_nat n) d).
Definition toy_map_batched
    (f : gmap string (list string) → res encoding) (d : list nat)
  : res (list nat) := Ok d.

Definition train_json : PosixPath := ["data"; "train.json"].

Definition disk_with_train_json : fs := {[ train_json := "{}" ]}.

End Seq2Seq.

(** ** [TrainingAgent] (tod/src/tod/train/train.py)

    The model, the optimizer, the scheduler and the clock are external:
    what the agent does to them is recorded, call by call, in a log.
    Attribute access is dynamic in Python, so the agent object is a
    namespace of named values and [getattr] looks names up in it. *)

Module Train.

Fixpoint foldM {S A B} (f : A → B → M S A) (a : A) (l : list B) : M S A :=
  match l with
  | [] => mret a
  | b :: l' => a' ← f a b; foldM f a' l'
  end.

Section TrainingAgent.
(** Tensors, loss tensors and Python floats. *)
Context {T L F : Type}.
(** [0], [+], [-] and [> 0] on Python numbers. *)
Variables (fzero : F) (fadd fsub : F → F → F) (gt0 : F → bool).
(** The model's forward pass and the tensor operations used on its
    loss; [time.time()] read for the n-th time. *)
Variables (forward : T → T → T → L) (mean : L → L) (item : L → F).
Variable clock : nat → F.

#[warnings="-register-all"]
Inductive value :=
| VNone
| VStr (s : string)
| VFloat (x : F)
| VDevices (ids : list Z)
| VLoader (batches : list (T * T * T))
| VObject (name : string)
| VMethod (name : string)
| VNamespace (fields : list (string * value)).

Inductive event :=
| Call (object method : string)
| Cuda (x : T) (device : value)
| Forward (inputs attention_mask targets : T) (grad : bool)
| ClipGradNorm (max_norm : F)
| Print (e_time t_time train_loss val_loss : F).

Record state := mk_state {
  log : list event;
  grad_enabled : bool;
  ticks : nat
}.

Definition emit (e : event) : M state unit :=
  Py.modify (λ σ, mk_state (log σ ++ [e]) (grad_enabled σ) (ticks σ)).

Definition time_time : M state F :=
  λ σ, (Ok (clock (ticks σ)),
        mk_state (log σ) (grad_enabled σ) (S (ticks σ))).

(** [with torch.no_grad(): body]: gradients are off inside the block
    and the previous mode is restored on the way out, also when the
    block raises. *)
Definition no_grad {A} (body : M state A) : M state A :=
  λ σ, let '(r, σ') := body (mk_state (log σ) false (ticks σ)) in
       (r, mk_state (log σ') (grad_enabled σ) (ticks σ')).

Fixpoint assoc (name : string) (fields : list (string * value))
  : option value :=
  match fields with
  | [] => None
  | (k, v) :: fields' => if String.eqb k name then Some v
                         else assoc name fields'
  end.

(** [obj.name]; methods and plain values carry no attribute of
    their own. *)
Definition getattr (obj : value) (name : string) : M state value :=
  match obj with
  | VNamespace fields =>
      match assoc name fields with
      | Some v => mret v
      | None => raise (AttributeError name)
      end
  | _ => raise (AttributeError name)
  end.

(** [obj.method()] on a collaborator. *)
Definition invoke (obj : value) (method : string) : M state unit :=
  match obj with
  | VObject o => emit (Call o method)
  | _ => raise (AttributeError method)
  end.

(** [len(x)] *)
Definition len (x : value) : M state nat :=
  match x with
  | VDevices ids => mret (length ids)
  | VStr s => mret (String.length s)
  | VLoader bs => mret (length bs)
  | _ => raise (TypeError "object has no len()")
  end.

(** [x > 0] *)
Definition is_positive (x : value) : M state bool :=
  match x with
  | VFloat q => mret (gt0 q)
  | _ => raise (TypeError "'>' not supported")
  end.

Definition is_not_None (x : value) : bool :=
  match x with VNone => false | _ => true end.

(** [x == 'cuda'] *)
Definition eq_str (x : value) (s : string) : bool :=
  match x with VStr s' => bool_decide (s' = s) | _ => false end.

(** [iter(x)] over a data loader. *)
Definition batches_of (x : value) : M state (list (T * T * T)) :=
  match x with
  | VLoader bs => mret bs
  | _ => raise (TypeError "object is not iterable")
  end.

(** Reading a local variable that may not have been assigned. *)
Definition local {A} (name : string) (v : option A) : M state A :=
  match v with
  | Some a => mret a
  | None => raise (UnboundLocalError name)
  end.

(** [x.cuda(device, non_blocking=True)] *)
Definition cuda (x : T) (device : value) : M state T :=
  emit (Cuda x device);; mret x.

(** The configuration of an agent that [__init__] and [reset] have
    set up. *)
Record agent := mk_agent {
  gpu : option (list Z);
  clip_grad : F;
  device : string;
  train_loader : list (T * T * T);
  val_loader : list (T * T * T);
  scheduler : bool
}.

(** The agent object: the attributes set on the instance (lines
    35-67) come first and shadow those of the class body (lines
    23-32 and the methods). *)
Definition self_ (a : agent) : value :=
  VNamespace [
    ("args", VNamespace [
       ("train", VNamespace [
          ("gpu", match gpu a with
                  | Some ids => VDevices ids
                  | None => VNone
                  end);
          ("clip_grad", VFloat (clip_grad a))])]);
    ("tokenizer", VObject "tokenizer");
    ("train_loader", VLoader (train_loader a));
    ("val_loader", VLoader (val_loader a));
    ("model", VObject "model");
    ("optimizer", VObject "optimizer");
    ("scheduler", if scheduler a then VObject "scheduler" else VNone);
    ("loss", VObject "loss");
    ("output_dir", VObject "output_dir");
    ("checkpoint_dir", VObject "checkpoint_dir");
    ("config", VNone);
    ("output_filename", VNone);
    ("checkpoint", VNone);
    ("device", VStr (device a));
    ("__init__", VMethod "__init__");
    ("reset", VMethod "reset");
    ("task_setup", VMethod "task_setup");
    ("train", VMethod "train");
    ("run_epochs", VMethod "run_epochs");
    ("epoch_iteration", VMethod "epoch_iteration");
    ("validate", VMethod "validate")].

(** [self.args.train.<name>] *)
Definition args_train (self : value) (name : string) : M state value :=
  args ← getattr self "args";
  train ← getattr args "train";
  getattr train name.

(** [self.model(inputs, attention_mask=.., targets=..)] *)
Definition call_model (model : value) (inputs attention_mask targets : T)
  : M state L :=
  match model with
  | VObject _ =>
      σ ← Py.get;
      emit (Forward inputs attention_mask targets (grad_enabled σ));;
      mret (forward inputs attention_mask targets)
  | _ => raise (TypeError "object is not callable")
  end.

(** Lines 100-119: one turn of the loop of [epoch_iteration]. The
    locals [train_loss] and [input_mask] live across turns. *)
Definition train_step (self : value) (locals : F * option T)
    (batch : T * T * T) : M state (F * option T) :=
  let '(train_loss, input_mask) := locals in
  let '(inputs, mask, targets) := batch in
  gpu ← args_train self "gpu";
  on_cuda ← (if is_not_None gpu
             then dev ← getattr self "device"; mret (eq_str dev "cuda")
             else mret false);
  '(inputs, input_mask, targets) ←
    (if on_cuda : bool then
       d ← (getattr self "train" ≫= λ t, getattr t "gpu");
       inputs ← cuda inputs d;
       d ← (getattr self "train" ≫= λ t, getattr t "gpu");
       input_mask ← cuda mask d;
       d ← (getattr self "train" ≫= λ t, getattr t "gpu");
       targets ← cuda targets d;
       mret (inputs, Some input_mask, targets)
     else mret (inputs, input_mask, targets));
  optimizer ← getattr self "optimizer";
  invoke optimizer "zero_grad";;
  model ← getattr self "model";
  attention_mask ← local "input_mask" input_mask;
  loss ← call_model model inputs attention_mask targets;
  gpu ← args_train self "gpu";
  n ← len gpu;
  loss ← (if bool_decide (1 < n)%nat
          then emit (Call "loss" "mean");; mret (mean loss)
          else mret loss);
  let train_loss := fadd train_loss (item loss) in
  emit (Call "loss" "backward");;
  clip ← args_train self "clip_grad";
  clipping ← is_positive clip;
  (if clipping : bool then
     match clip with
     | VFloat c => emit (ClipGradNorm c)
     | _ => mret tt
     end
   else mret tt);;
  optimizer ← getattr self "optimizer";
  invoke optimizer "step";;
  scheduler ← getattr self "scheduler";
  (if is_not_None scheduler then invoke scheduler "step" else mret tt);;
  mret (train_loss, input_mask).

(** Lines 96-120. *)
Definition epoch_iteration (self : value) (trial epoch : nat)
  : M state F :=
  model ← getattr self "model";
  invoke model "train";;
  loader ← getattr self "train_loader";
  batches ← batches_of loader;
  '(train_loss, _) ← foldM (train_step self) (fzero, None) batches;
  mret train_loss.

(** Lines 125-135: one turn of the loop of [validate]. *)
Definition validate_step (self : value) (locals : F * option T)
    (batch : T * T * T) : M state (F * option T) :=
  let '(val_loss, input_mask) := locals in
  let '(inputs, mask, targets) := batch in
  gpu ← getattr self "gpu";
  on_cuda ← (if is_not_None gpu
             then dev ← getattr self "device"; mret (eq_str dev "cuda")
             else mret false);
  '(inputs, input_mask, targets) ←
    (if on_cuda : bool then
       d ← getattr self "gpu";
       inputs ← cuda inputs d;
       d ← getattr self "gpu";
       input_mask ← cuda mask d;
       d ← getattr self "gpu";
       targets ← cuda targets d;
       mret (inputs, Some input_mask, targets)
     else mret (inputs, input_mask, targets));
  loss ← no_grad (
    model ← getattr self "model";
    attention_mask ← local "input_mask" input_mask;
    call_model model inputs attention_mask targets);
  gpu ← args_train self "gpu";
  n ← len gpu;
  loss ← (if bool_decide (1 < n)%nat
          then emit (Call "loss" "mean");; mret (mean loss)
          else mret loss);
  mret (fadd val_loss (item loss), input_mask).

(** Lines 122-136. *)
Definition validate (self : value) (epoch : nat) : M state F :=
  model ← getattr self "model";
  invoke model "eval";;
  loader ← getattr self "val_loader";
  batches ← batches_of loader;
  '(val_loss, _) ← foldM (validate_step self) (fzero, None) batches;
  mret val_loss.

(** Calling a bound method of the agent: the methods that take
    [(trial, epoch)] and those that take [(epoch)]. *)
Definition call_trial_epoch (method : value) (self : value)
    (trial epoch : nat) : M state F :=
  match method with
  | VMethod "epoch_iteration" => epoch_iteration self trial epoch
  | _ => raise (TypeError "object is not callable with (trial, epoch)")
  end.

Definition call_epoch (method : value) (self : value) (epoch : nat)
  : M state F :=
  match method with
  | VMethod "validate" => validate self epoch
  | _ => raise (TypeError "object is not callable with (epoch)")
  end.

(** Lines 86-94: one turn of the loop of [run_epochs]. *)
Definition run_epoch (self : value) (trial : nat) (_ : unit)
    (epoch : nat) : M state unit :=
  start_time ← time_time;
  f ← getattr self "epoch_iteration";
  train_loss ← call_trial_epoch f self trial epoch;
  epoch_time ← time_time;
  g ← getattr self "evaluate";
  val_loss ← call_epoch g self epoch;
  end_time ← time_time;
  emit (Print (fsub epoch_time start_time) (fsub end_time epoch_time)
              train_loss val_loss).

(** Lines 83-94. *)
Definition run_epochs (self : value) (trial : nat) (epochs : list nat)
  : M state unit :=
  foldM (run_epoch self trial) tt epochs.

(** The state after one more call has been logged. *)
Definition logged (e : event) (σ : state) : state :=
  mk_state (log σ ++ [e]) (grad_enabled σ) (ticks σ).

(** The condition of line 100, and what a first turn of the training
    loop runs into: with the transfer to the device,
    [self.train.gpu] is read off the method [train] (line 78);
    without it, [input_mask] has no value at line 106. *)
Definition on_cuda (a : agent) : bool :=
  bool_decide (is_Some (gpu a)) && bool_decide (device a = "cuda").

Definition first_turn_error (a : agent) : exn :=
  if on_cuda a then AttributeError "gpu"
  else UnboundLocalError "input_mask".

Definition first_turn_log (a : agent) : list event :=
  if on_cuda a then [] else [Call "optimizer" "zero_grad"].

End TrainingAgent.

(** An agent for the examples: no device list, one batch to train
    on, one to validate on; numbers are integers. *)
Definition toy_agent : @agent Z Z :=
  mk_agent None 1 "cuda" [(1, 1, 1)] [(2, 2, 2)] true.

Definition idle_agent : @agent Z Z :=
  mk_agent None 1 "cuda" [] [] true.

Definition start : @state Z Z := mk_state [] true 0.

End Train.

(** ** [LineByLineTextDataset] (src/ctg/data/utils.py, lines 44-69)

    Text is taken in the ASCII range, as for [strip] above. *)

Module LineByLine.
Import Files Vocabulary Seq2Seq.

(** The characters at which [str.splitlines] cuts: line feed, vertical
    tab, form feed, carriage return, and the file, group and record
    separators. *)
Definition is_linebreak (c : ascii) : bool :=
  let n := nat_of_ascii c in
  bool_decide (10 ≤ n ≤ 13)%nat || bool_decide (28 ≤ n ≤ 30)%nat.

(** [str.splitlines()]: the lines without their ends; a carriage return
    followed by a line feed ends one line, and a text that ends in a
    line end has no empty last line. *)
Fixpoint splitlines_go (cur : string) (s : string) : list string :=
  match s with
  | EmptyString => if decide (cur = "") then [] else [String.rev cur]
  | String c s' =>
      if is_linebreak c then
        String.rev cur ::
        match s' with
        | String c' s'' =>
            if decide (c = CR ∧ c' = LF) then splitlines_go "" s''
            else splitlines_go "" s'
        | EmptyString => splitlines_go "" s'
        end
      else splitlines_go (String c cur) s'
  end.

Definition splitlines (s : string) : list string := splitlines_go "" s.

(** Lines 47-48: the lines that are neither empty nor whitespace. *)
Definition kept_lines (text : string) : list string :=
  filter (λ line, (0 < String.length line)%nat ∧ str_isspace line = false)
         (splitlines text).

Record LineByLineTextDataset := mk_dataset {
  examples : list (list Z);
  masks : list (list Z)
}.

(** Lines 45-59; [batch_encode_plus] is the tokenizer's, called with the
    lines and [max_length]. *)
Definition __init__ (batch_encode_plus : list string → Z → encoding)
    (disk : fs) (file_path : PosixPath) (max_length : Z)
  : res LineByLineTextDataset :=
  text ← open_ disk file_path;
  let lines := kept_lines text in
  let tokenized := batch_encode_plus lines max_length in
  examples ← getitem tokenized "input_ids";
  masks ← getitem tokenized "attention_mask";
  mret (mk_dataset examples masks).

(** Lines 61-62. *)
Definition __len__ (self : LineByLineTextDataset) : Z :=
  Z.of_nat (length (examples self)).

(** [l[i]] on a Python list: a negative index counts from the end. *)
Definition list_getitem {A} (l : list A) (i : Z) : res A :=
  let n := Z.of_nat (length l) in
  let j := if bool_decide (i < 0) then i + n else i in
  if bool_decide (0 ≤ j < n) then
    match l !! Z.to_nat j with
    | Some x => Ok x
    | None => Raise (IndexError "list index out of range")
    end
  else Raise (IndexError "list index out of range").

(** [torch.LongTensor(row)]: a tensor of 64-bit integers with the
    values of [row], each of which must be one. *)
Definition LongTensor (row : list Z) : res (list Z) :=
  if decide (Forall Tensor.int64 row) then Ok row
  else Raise (RuntimeError Tensor.overflow).

(** Lines 64-69: the row is looked up and converted, then the mask. *)
Definition __getitem__ (self : LineByLineTextDataset) (i : Z)
  : res (list Z * list Z) :=
  example ← list_getitem (examples self) i;
  example ← LongTensor example;
  mask ← list_getitem (masks self) i;
  mask ← LongTensor mask;
  mret (example, mask).

End LineByLine.

(** ** [vocabulary_indices] (src/ctg/data/utils.py, lines 176-177) *)

Module Indices.

(** [sorted(list(vocabulary))]: strings compare character by character,
    by code, a proper prefix coming first; the order is total, so the
    sorted list does not depend on the sorting method. *)
Definition sorted (vocabulary : list string) : list string :=
  merge_sort String.le vocabulary.

(** [enumerate(l)] *)
Definition enumerate {A} (l : list A) : list (nat * A) := imap pair l.

(** The dict comprehension: one entry per pair, a later pair replacing
    an earlier one with the same key. *)
Definition vocabulary_indices (vocabulary : list string)
  : gmap string nat :=
  foldl (λ d '(i, word), <[word := i]> d) ∅
        (enumerate (sorted vocabulary)).

End Indices.

(** ** Setting up a [TrainingAgent] (tod/src/tod/train/train.py,
       lines 22-76)

    [__init__], [reset] and [task_setup] read and write the attributes of
    the instance, and call functions of other modules ([get_tokenizer],
    [load_data], [get_model], [get_optimizer_scheduler], [create_dir],
    [torch.nn.DataParallel]). An object made by such a call is named by
    the call that made it; the state is the attribute dictionary of the
    instance and the list of the calls made so far. *)

Module TrainSetup.

#[warnings="-register-all"]
Inductive obj :=
| ONone
| OStr (s : string)
| OInt (n : Z)
| OList (items : list obj)
| ODict (entries : list (string * obj))
| ONamespace (fields : list (string * obj))
| OMade (function : string) (args : list (string * obj)).

Record instance := mk_instance {
  attrs : gmap string obj;
  calls : list (string * list (string * obj))
}.

Fixpoint assoc (name : string) (fields : list (string * obj))
  : option obj :=
  match fields with
  | [] => None
  | (k, v) :: fields' => if String.eqb k name then Some v
                         else assoc name fields'
  end.

(** The data attributes of the class body (lines 23-32) and the names
    of its methods. *)
Definition class_data : list (string * obj) :=
  [("config", ONone); ("train_loader", ONone); ("val_loader", ONone);
   ("model", ONone); ("optimizer", ONone); ("scheduler", ONone);
   ("loss", ONone); ("output_filename", ONone); ("checkpoint", ONone);
   ("device", OStr "cuda")].

Definition class_methods : list string :=
  ["__init__"; "reset"; "task_setup"; "train"; "run_epochs";
   "epoch_iteration"; "validate"].

(** [self.name]: the instance first, then the class. *)
Definition getattr_self (name : string) : M instance obj :=
  λ σ, match attrs σ !! name with
       | Some v => (Ok v, σ)
       | None =>
           match assoc name class_data with
           | Some v => (Ok v, σ)
           | None =>
               if bool_decide (name ∈ class_methods)
               then (Ok (OMade "bound method" [("", OStr name)]), σ)
               else (Raise (AttributeError name), σ)
           end
       end.

(** [self.name = v] *)
Definition setattr_self (name : string) (v : obj) : M instance unit :=
  Py.modify (λ σ, mk_instance (<[name := v]> (attrs σ)) (calls σ)).

(** [o.name] on a value that is not the instance. *)
Definition getattr (o : obj) (name : string) : M instance obj :=
  match o with
  | ONamespace fields =>
      match assoc name fields with
      | Some v => mret v
      | None => raise (AttributeError name)
      end
  | _ => raise (AttributeError name)
  end.

(** [f(args)] for a function of another module; an argument is given
    with its keyword, or with the empty keyword when positional. *)
Definition call_external (f : string) (args : list (string * obj))
  : M instance obj :=
  Py.modify (λ σ, mk_instance (attrs σ) (calls σ ++ [(f, args)]));;
  mret (OMade f args).

(** [o.method(args)] and [o(args)] on an object made outside. *)
Definition call_method (o : obj) (method : string)
    (args : list (string * obj)) : M instance obj :=
  match o with
  | OMade _ _ => call_external method (("self", o) :: args)
  | _ => raise (AttributeError method)
  end.

Definition call_value (o : obj) (args : list (string * obj))
  : M instance obj :=
  match o with
  | OMade _ _ => call_external "__call__" (("self", o) :: args)
  | _ => raise (TypeError "object is not callable")
  end.

Definition eq_str (o : obj) (s : string) : bool :=
  match o with OStr s' => bool_decide (s' = s) | _ => false end.

Section TrainingAgent.
(** [len(o)] of an object made outside. *)
Variable len_made : string → list (string * obj) → Z.

Definition len (o : obj) : M instance Z :=
  match o with
  | OStr s => mret (Z.of_nat (String.length s))
  | OList items => mret (Z.of_nat (length items))
  | ODict entries => mret (Z.of_nat (length entries))
  | OMade f args => mret (len_made f args)
  | _ => raise (TypeError "object has no len()")
  end.

(** [a, b = o] *)
Definition unpack2 (o : obj) : M instance (obj * obj) :=
  match o with
  | OList [a; b] => mret (a, b)
  | OList _ => raise (ValueError ["wrong number of values to unpack"])
  | OMade _ _ =>
      mret (OMade "__getitem__" [("self", o); ("", OInt 0)],
            OMade "__getitem__" [("self", o); ("", OInt 1)])
  | _ => raise (TypeError "cannot unpack non-iterable object")
  end.

(** [self.args.group.name] and [self.args.name] *)
Definition args_ (group name : string) : M instance obj :=
  args ← getattr_self "args";
  g ← getattr args group;
  getattr g name.

Definition args_top (name : string) : M instance obj :=
  args ← getattr_self "args";
  getattr args name.

(** Lines 70-76. *)
Definition task_setup : M instance unit :=
  name ← args_ "data" "name";
  if eq_str name "MultiWOZ" then
    task ← args_ "data" "task";
    if eq_str task "causal" then
      tokenizer ← getattr_self "tokenizer";
      call_method tokenizer "add_special_tokens"
        [("", ODict [("bos_token", OStr "<|endoftext|>")])];;
      tokenizer ← getattr_self "tokenizer";
      call_method tokenizer "add_special_tokens"
        [("", ODict [("eos_token", OStr "<|endoftext|>")])];;
      mret tt
    else mret tt
  else mret tt.

(** [self.name()] for a method of the class: an attribute of that name
    on the instance would be called in its place. *)
Definition call_self (name : string) (method : M instance unit)
  : M instance unit :=
  λ σ, match attrs σ !! name with
       | Some v => (call_value v [];; mret tt) σ
       | None => method σ
       end.

(** [load_data(...)] with the arguments of lines 40-45 and 46-51. *)
Definition load_data_args (src tgt : string) (fresh_tokenizer : bool)
  : M instance (list (string * obj)) :=
  src_fname ← args_ "data" src;
  tgt_fname ← args_ "data" tgt;
  tokenizer ← getattr_self "tokenizer";
  tokenizer ← (if fresh_tokenizer
               then call_external "get_tokenizer" [("", tokenizer)]
               else mret tokenizer);
  max_length ← args_ "train" "max_length";
  batch_size ← args_ "train" "batch_size";
  num_workers ← args_ "train" "num_workers";
  mret [("src_fname", src_fname); ("tgt_fname", tgt_fname);
        ("tokenizer", tokenizer); ("max_length", max_length);
        ("batch_size", batch_size); ("num_workers", num_workers)].

(** Lines 38-68. *)
Definition reset : M instance unit :=
  tokenizer ← getattr_self "tokenizer";
  tokenizer ← call_external "get_tokenizer" [("", tokenizer)];
  setattr_self "tokenizer" tokenizer;;
  a ← load_data_args "train_src" "train_tgt" false;
  train_loader ← call_external "load_data" a;
  setattr_self "train_loader" train_loader;;
  a ← load_data_args "val_src" "val_tgt" true;
  val_loader ← call_external "load_data" a;
  setattr_self "val_loader" val_loader;;
  m ← args_top "model";
  model ← call_external "get_model" [("", m)];
  setattr_self "model" model;;
  model ← getattr_self "model";
  device ← getattr_self "device";
  call_method model "to" [("", device)];;
  gpu ← args_ "train" "gpu";
  n ← len gpu;
  (if bool_decide (1 < n) then
     model ← getattr_self "model";
     parallel ← call_external "torch.nn.DataParallel" [("", model)];
     setattr_self "model" parallel
   else mret tt);;
  optim_method ← args_ "train" "optimizer";
  scheduler_method ← args_ "train" "scheduler";
  model ← getattr_self "model";
  net_parameters ← call_method model "parameters" [];
  max_epochs ← args_ "train" "max_epochs";
  train_loader ← getattr_self "train_loader";
  train_loader_len ← len train_loader;
  optimizer_kwargs ← args_ "train" "optimizer_kwargs";
  scheduler_kwargs ← args_ "train" "scheduler_kwargs";
  pair ← call_external "get_optimizer_scheduler"
           [("optim_method", optim_method);
            ("scheduler_method", scheduler_method);
            ("net_parameters", net_parameters);
            ("max_epochs", max_epochs);
            ("train_loader_len", OInt train_loader_len);
            ("optimizer_kwargs", optimizer_kwargs);
            ("scheduler_kwargs", scheduler_kwargs)];
  '(optimizer, scheduler) ← unpack2 pair;
  setattr_self "optimizer" optimizer;;
  setattr_self "scheduler" scheduler;;
  get_loss ← getattr_self "get_loss";
  loss_name ← args_ "train" "loss";
  loss ← call_value get_loss [("", loss_name)];
  setattr_self "loss" loss;;
  output ← args_ "io" "output";
  output_dir ← call_external "create_dir" [("", output)];
  setattr_self "output_dir" output_dir;;
  checkpoint ← args_ "io" "checkpoint";
  checkpoint_dir ← call_external "create_dir" [("", checkpoint)];
  setattr_self "checkpoint_dir" checkpoint_dir;;
  call_self "task_setup" task_setup.

(** Lines 34-36. *)
Definition __init__ (args : obj) : M instance unit :=
  setattr_self "args" args;;
  call_self "reset" reset.

End TrainingAgent.

(** An instance before [__init__] has run. *)
Definition new_instance : instance := mk_instance ∅ [].

(** [m] run from a state where [P] holds: if it returns, [Q] holds of
    the value and the state; if it raises, [E] holds of the state. *)
Definition triple {A} (P : instance → Prop) (m : M instance A)
    (Q : A → instance → Prop) (E : instance → Prop) : Prop :=
  ∀ σ, P σ → match m σ with
             | (Ok a, σ') => Q a σ'
             | (Raise _, σ') => E σ'
             end.

(** What holds of an instance until [reset] asks for [get_loss]: the
    instance has no attribute of that name, and [create_dir] has not
    been called. *)
Definition no_loss_yet (σ : instance) : Prop :=
  attrs σ !! "get_loss" = None ∧
  Forall (λ c, c.1 ≠ "create_dir") (calls σ).

(** Arguments for the examples. *)
Definition toy_args : obj :=
  ONamespace [
    ("data", ONamespace [("name", OStr "MultiWOZ"); ("task", OStr "causal");
                         ("train_src", OStr "train.src");
                         ("train_tgt", OStr "train.tgt");
                         ("val_src", OStr "val.src");
                         ("val_tgt", OStr "val.tgt")]);
    ("train", ONamespace [("max_length", OInt 128); ("batch_size", OInt 8);
                          ("num_workers", OInt 4);
                          ("gpu", OList [OInt 0]);
                          ("optimizer", OStr "AdamW");
                          ("scheduler", ONone);
                          ("max_epochs", OInt 3);
                          ("optimizer_kwargs", ODict []);
                          ("scheduler_kwargs", ODict []);
                          ("loss", OStr "cross_entropy")]);
    ("model", OStr "gpt2");
    ("io", ONamespace [("output", OStr "out");
                       ("checkpoint", OStr "ckpt")])].

End TrainSetup.

(** * Properties *)

(** ** Running monadic code *)

Module PyFacts.

Lemma run_bind {S A B} (m : M S A) (k : A → M S B) (σ : S) :
  (m ≫= k) σ = match m σ with
               | (Ok a, σ') => k a σ'
               | (Raise e, σ') => (Raise e, σ')
               end.
Proof. reflexivity. Qed.

Lemma run_ret {S A} (a : A) (σ : S) : (mret a : M S A) σ = (Ok a, σ).
Proof. reflexivity. Qed.

Lemma run_raise {S A} (e : exn) (σ : S) :
  (raise e : M S A) σ = (Raise e, σ).
Proof. reflexivity. Qed.

End PyFacts.

Module TensorFacts.
Import Tensor PyFacts.

Lemma deref_run (σ : store) l t : σ !! l = Some t → deref l σ = (Ok t, σ).
Proof. intros H. unfold deref. by rewrite H. Qed.

Lemma fresh_None (σ : store) : σ !! fresh (dom σ) = None.
Proof. apply not_elem_of_dom, is_fresh. Qed.

Lemma fresh_ne (σ : store) l t : σ !! l = Some t → fresh (dom σ) ≠ l.
Proof. intros H E. rewrite <- E, fresh_None in H. done. Qed.

Lemma new_zeros_run (σ : store) x t :
  σ !! x = Some t →
  new_zeros x σ =
    (Ok (fresh (dom σ)),
     <[fresh (dom σ) :=
         mk_tensor (shape t) (replicate (nrows t) (replicate (ncols t) 0))]> σ).
Proof.
  intros H. unfold new_zeros. by rewrite run_bind, (deref_run _ _ _ H).
Qed.

Lemma getitem_but_last_run (σ : store) x t :
  σ !! x = Some t →
  getitem_but_last x σ =
    (Ok (mk_tensor (nrows t, (ncols t - 1)%nat)
                   (fmap (λ r, take (length r - 1) r) (rows t))), σ).
Proof.
  intros H. unfold getitem_but_last. by rewrite run_bind, (deref_run _ _ _ H).
Qed.

Lemma setitem_from_1_run (σ : store) x y t s :
  σ !! x = Some t → σ !! y = Some s →
  shape s = (nrows t, (ncols t - 1)%nat) →
  setitem_from_1 x y σ =
    (Ok tt, <[x := mk_tensor (shape t)
                (zip_with (λ r q, take 1 r ++ q) (rows t) (rows s))]> σ).
Proof.
  intros Hx Hy Hs. unfold setitem_from_1.
  rewrite run_bind, (deref_run _ _ _ Hx), run_bind, (deref_run _ _ _ Hy).
  by rewrite decide_True.
Qed.

Lemma setitem_0_run (σ : store) x t v :
  σ !! x = Some t →
  setitem_0 x v σ =
    if decide (int64 v) then
      if decide (ncols t = 0%nat) then
        (Raise (IndexError index_0_out_of_bounds), σ)
      else
        (Ok tt, <[x := mk_tensor (shape t)
                           (fmap (λ r, <[0%nat:=v]> r) (rows t))]> σ)
    else (Raise (RuntimeError overflow), σ).
Proof.
  intros Hx. unfold setitem_0. rewrite run_bind, (deref_run _ _ _ Hx).
  destruct (decide (int64 v)); [|done]. by destruct (decide _).
Qed.

Lemma eq_scalar_run (σ : store) x t v :
  σ !! x = Some t →
  eq_scalar x v σ = (Ok (mask_of (λ a, bool_decide (a = v)) t), σ).
Proof.
  intros Hx. unfold eq_scalar. by rewrite run_bind, (deref_run _ _ _ Hx).
Qed.

Lemma ge_scalar_run (σ : store) x t v :
  σ !! x = Some t →
  ge_scalar x v σ = (Ok (mask_of (λ a, bool_decide (v ≤ a)) t), σ).
Proof.
  intros Hx. unfold ge_scalar. by rewrite run_bind, (deref_run _ _ _ Hx).
Qed.

Lemma masked_fill_run (σ : store) x t mask v :
  σ !! x = Some t →
  masked_fill_ x mask v σ =
    if decide (int64 v) then
      (Ok tt, <[x := mk_tensor (shape t)
                  (zip_with (zip_with (λ a (b : bool), if b then v else a))
                            (rows t) mask)]> σ)
    else (Raise (RuntimeError overflow), σ).
Proof.
  intros Hx. unfold masked_fill_. rewrite run_bind, (deref_run _ _ _ Hx).
  by destruct (decide (int64 v)).
Qed.

End TensorFacts.

Module RightShiftFacts.
Import Tensor RightShift PyFacts TensorFacts.

(** The call, statement by statement. *)
Lemma right_shift_run s pad l (σ : store) g :
  σ !! l = Some g →
  let l1 := fresh (dom σ) in
  let σ1 := <[l1 := zeros g]> σ in
  let l2 := fresh (dom σ1) in
  let σ3 := <[l1 := after_shift g]> (<[l2 := but_last g]> σ1) in
  right_shift s pad l σ =
    if decide (int64 s) then
      if decide (ncols g = 0%nat) then
        (Raise (IndexError index_0_out_of_bounds), σ3)
      else
        let σ4 := <[l1 := after_start s g]> σ3 in
        match pad with
        | None => (Raise (AssertionError pad_undefined), σ4)
        | Some p =>
            if decide (int64 p) then
              (if all (mask_of (λ a, bool_decide (0 ≤ a)) (after_fill s p g))
               then Ok l1 else Raise (AssertionError only_positive),
               <[l1 := after_fill s p g]> σ4)
            else (Raise (RuntimeError overflow), σ4)
        end
    else (Raise (RuntimeError overflow), σ3).
Proof.
  intros Hl l1 σ1 l2 σ3.
  assert (Hl1 : l1 ≠ l) by (by eapply fresh_ne).
  assert (H12 : l2 ≠ l1).
  { apply (fresh_ne σ1 l1 (zeros g)). subst σ1. by rewrite lookup_insert_eq. }
  unfold right_shift.
  rewrite run_bind, (new_zeros_run _ _ _ Hl). fold l1 (zeros g) σ1.
  rewrite run_bind, (getitem_but_last_run _ _ g);
    last by (subst σ1; rewrite lookup_insert_ne).
  fold (but_last g). rewrite run_bind. unfold clone, alloc. fold l2.
  rewrite run_bind,
    (setitem_from_1_run _ l1 l2 (zeros g) (but_last g)); [| | |done].
  2: { rewrite lookup_insert_ne by done. subst σ1. by rewrite lookup_insert_eq. }
  2: { by rewrite lookup_insert_eq. }
  fold (after_shift g). fold σ3.
  rewrite run_bind, (setitem_0_run _ l1 (after_shift g));
    last by (subst σ3; rewrite lookup_insert_eq).
  change (ncols (after_shift g)) with (ncols g).
  destruct (decide (int64 s)) as [Hs|Hs]; [|done].
  destruct (decide (ncols g = 0%nat)) as [Hc|Hc]; [done|].
  change (shape (after_shift g)) with (shape g). fold (after_start s g).
  cbv zeta. set (σ4 := <[l1:=after_start s g]> σ3).
  destruct pad as [p|]; [|done].
  rewrite run_bind, (eq_scalar_run _ l1 (after_start s g));
    last by (subst σ4; rewrite lookup_insert_eq).
  rewrite run_bind, (masked_fill_run _ l1 (after_start s g));
    last by (subst σ4; rewrite lookup_insert_eq).
  destruct (decide (int64 p)) as [Hp|Hp]; [|done].
  change (shape (after_start s g)) with (shape g). fold (after_fill s p g).
  rewrite run_bind, (ge_scalar_run _ l1 (after_fill s p g));
    last by rewrite lookup_insert_eq.
  by destruct (all _).
Qed.

(** The grids of the call, read position by position. *)
Lemma rows_after_fill s p g :
  rows (after_fill s p g)
  = (λ r : list Z, fill p <$> r) <$> rows (after_start s g).
Proof.
  unfold after_fill, mask_of. cbn [rows].
  rewrite zip_with_fmap_r, zip_with_diag.
  apply list_fmap_ext. intros _ r _.
  rewrite zip_with_fmap_r, zip_with_diag.
  apply list_fmap_ext. intros _ a _. unfold fill.
  by destruct (decide (a = -100)); [rewrite bool_decide_true|rewrite bool_decide_false].
Qed.

Lemma rows_after_start s g :
  wf g → ncols g ≠ 0%nat →
  rows (after_start s g)
  = (λ r : list Z, s :: take (ncols g - 1) r) <$> rows g.
Proof.
  intros [Hn Hc] Hz. unfold after_start, after_shift, zeros, but_last.
  cbn [rows]. rewrite zip_with_replicate_l by (rewrite length_fmap; lia).
  rewrite <- !list_fmap_compose.
  apply list_fmap_ext. intros i r Hr. cbn.
  rewrite (Forall_lookup_1 _ _ _ _ Hc Hr).
  destruct (ncols g) as [|c]; [done|]. reflexivity.
Qed.

Lemma at_after_fill s p g r i :
  wf g → ncols g ≠ 0%nat →
  at_ (after_fill s p g) r i
  = rows g !! r ≫= λ row,
      match i with
      | O => Some (fill p s)
      | S j => fill p <$> take (ncols g - 1) row !! j
      end.
Proof.
  intros Hwf Hz. unfold at_.
  rewrite rows_after_fill, rows_after_start by done.
  rewrite <- list_fmap_compose, list_lookup_fmap.
  destruct (rows g !! r) as [row|]; [|done]. cbn.
  destruct i as [|j]; [done|]. apply list_lookup_fmap.
Qed.

Lemma at_after_fill_0 s p g r :
  wf g → ncols g ≠ 0%nat → (r < nrows g)%nat →
  at_ (after_fill s p g) r 0 = Some (fill p s).
Proof.
  intros Hwf Hz Hr. rewrite at_after_fill by done.
  destruct Hwf as [Hn _]. rewrite <- Hn in Hr.
  apply lookup_lt_is_Some_2 in Hr as [row ->]. done.
Qed.

Lemma at_after_fill_S s p g r i :
  wf g → (1 ≤ i < ncols g)%nat →
  at_ (after_fill s p g) r i = fill p <$> at_ g r (i - 1).
Proof.
  intros Hwf Hi. rewrite at_after_fill by (done || lia). unfold at_.
  destruct (rows g !! r) as [row|]; [|done]. cbn.
  destruct i as [|j]; [lia|]. rewrite lookup_take_lt by lia.
  by replace (S j - 1)%nat with j by lia.
Qed.

Lemma wf_after_fill s p g : wf g → ncols g ≠ 0%nat → wf (after_fill s p g).
Proof.
  intros Hwf Hz. pose proof Hwf as [Hn Hc]. split.
  - rewrite rows_after_fill, rows_after_start by done.
    by rewrite !length_fmap.
  - rewrite rows_after_fill, rows_after_start by done.
    rewrite <- list_fmap_compose. apply Forall_fmap.
    eapply Forall_impl; [exact Hc|]. intros r Hr. cbn.
    change (ncols (after_fill s p g)) with (ncols g).
    rewrite length_fmap, length_take. cbv beta in Hr. lia.
Qed.

Lemma all_nonneg t :
  all (mask_of (λ a, bool_decide (0 ≤ a)) t) = true
  ↔ ∀ r i v, at_ t r i = Some v → 0 ≤ v.
Proof.
  unfold all, mask_of, at_. rewrite forallb_forall. split.
  - intros H r i v Hv.
    destruct (rows t !! r) as [row|] eqn:Hrow; [|done]. cbn in Hv.
    specialize (H (fmap (λ a, bool_decide (0 ≤ a)) row)).
    rewrite forallb_forall in H.
    assert (Hin : In (bool_decide (0 ≤ v))
                     (fmap (λ a, bool_decide (0 ≤ a)) row)).
    { apply list_elem_of_In, list_elem_of_fmap. exists v. split; [done|].
      by eapply list_elem_of_lookup_2. }
    assert (Hrow' : In (fmap (λ a, bool_decide (0 ≤ a)) row)
                       (fmap (λ r : list Z,
                                fmap (λ a, bool_decide (0 ≤ a)) r) (rows t))).
    { apply list_elem_of_In, list_elem_of_fmap. exists row. split; [done|].
      by eapply list_elem_of_lookup_2. }
    specialize (H Hrow' _ Hin). by apply bool_decide_eq_true in H.
  - intros H m Hm. apply list_elem_of_In, list_elem_of_fmap in Hm
      as (row & -> & Hrow).
    apply list_elem_of_lookup in Hrow as [r Hr].
    rewrite forallb_forall. intros b Hb.
    apply list_elem_of_In, list_elem_of_fmap in Hb as (v & -> & Hv).
    apply list_elem_of_lookup in Hv as [i Hi].
    apply bool_decide_eq_true. apply (H r i v). by rewrite Hr.
Qed.

Lemma at_after_fill_start s p g r i :
  at_ (after_fill s p g) r i = fill p <$> at_ (after_start s g) r i.
Proof.
  unfold at_. rewrite rows_after_fill, list_lookup_fmap.
  destruct (rows (after_start s g) !! r) as [row|]; [|done].
  apply list_lookup_fmap.
Qed.

(** What the store holds when the call is over. *)
Lemma right_shift_store s pad l (σ : store) g :
  σ !! l = Some g →
  ∀ k t, σ !! k = Some t → (right_shift s pad l σ).2 !! k = Some t.
Proof.
  intros Hl k t Hk. pose proof (right_shift_run s pad l σ g Hl) as Hrun.
  cbv zeta in Hrun. rewrite Hrun. clear Hrun.
  set (l1 := fresh (dom σ)).
  set (l2 := fresh (dom (<[l1:=zeros g]> σ))).
  assert (H1 : l1 ≠ k) by (by eapply fresh_ne).
  assert (H2 : l2 ≠ k).
  { apply (fresh_ne _ k t). by rewrite lookup_insert_ne. }
  destruct (decide (int64 s)); [|cbn [snd]; by rewrite !lookup_insert_ne].
  destruct (decide (ncols g = 0%nat));
    [|destruct pad as [p|]; [destruct (decide (int64 p))|]]; cbn [snd];
    by rewrite !lookup_insert_ne.
Qed.

Lemma right_shift_returns s pad l (σ : store) g l' σ' :
  σ !! l = Some g → right_shift s pad l σ = (Ok l', σ') →
  ∃ p, pad = Some p ∧ ncols g ≠ 0%nat ∧ l' = fresh (dom σ) ∧
       σ' !! l' = Some (after_fill s p g) ∧
       ∀ r i v, at_ (after_fill s p g) r i = Some v → 0 ≤ v.
Proof.
  intros Hl Hrun. rewrite (right_shift_run s pad l σ g Hl) in Hrun.
  cbv zeta in Hrun.
  destruct (decide (int64 s)); [|done].
  destruct (decide (ncols g = 0%nat)) as [|Hz]; [done|].
  destruct pad as [p|]; [|done]. exists p.
  destruct (decide (int64 p)); [|done].
  destruct (all _) eqn:Hall; [|done].
  injection Hrun as <- <-. rewrite lookup_insert_eq.
  repeat split; try done. by apply all_nonneg.
Qed.

(** A call that returns was given ids of the 64-bit range. *)
Lemma right_shift_returns_int64 s pad l (σ : store) g l' σ' :
  σ !! l = Some g → right_shift s pad l σ = (Ok l', σ') →
  int64 s ∧ ∀ p, pad = Some p → int64 p.
Proof.
  intros Hl Hrun. rewrite (right_shift_run s pad l σ g Hl) in Hrun.
  cbv zeta in Hrun.
  destruct (decide (int64 s)); [|done]. split; [done|].
  destruct (decide (ncols g = 0%nat)) as [|Hz]; [done|].
  destruct pad as [p|]; [|done].
  destruct (decide (int64 p)); [|done]. by intros ? [= <-].
Qed.

(** With ids of the 64-bit range, on a grid with a column, the call
    ends as the assertion of line 38 decides. *)
Lemma right_shift_run_int64 s p l (σ : store) g :
  σ !! l = Some g → int64 s → int64 p → ncols g ≠ 0%nat →
  right_shift s (Some p) l σ =
    (if all (mask_of (λ a, bool_decide (0 ≤ a)) (after_fill s p g))
     then Ok (fresh (dom σ)) else Raise (AssertionError only_positive),
     <[fresh (dom σ) := after_fill s p g]>
       (<[fresh (dom σ) := after_start s g]>
          (<[fresh (dom σ) := after_shift g]>
             (<[fresh (dom (<[fresh (dom σ) := zeros g]> σ)) := but_last g]>
                (<[fresh (dom σ) := zeros g]> σ))))).
Proof.
  intros Hl Hs Hp Hz. rewrite (right_shift_run s (Some p) l σ g Hl).
  cbv zeta. by rewrite !decide_True, decide_False, decide_True by done.
Qed.

End RightShiftFacts.

(** ** [right_shift]: the shift, the sentinel, the assertions, the frame *)

Module RightShiftSpec.
Import Tensor RightShift PyFacts TensorFacts RightShiftFacts.

(** C1, as the claim has it, fails: the call does not return on every
    grid with a column. On [[-5, 6, 7]] with start 1 and pad 0 the
    shifted grid is [[1, -5, 6]] and the assertion of line 38 stops the
    call; on [[5, 6, 7]] the call does not return either when the pad
    id is missing (the assertion of line 33) or when the start id is
    2^63, which the write of line 31 cannot store. *)
Lemma right_shift_negative_raises :
  right_shift_of 1 (Some 0) (grid [[-5; 6; 7]])
  = Raise (AssertionError only_positive)
  ∧ right_shift_of 1 None (grid [[5; 6; 7]])
    = Raise (AssertionError pad_undefined)
  ∧ ∀ out, right_shift_of (2 ^ 63) (Some 0) (grid [[5; 6; 7]]) ≠ Ok out.
Proof.
  split; [vm_compute; reflexivity|]. split; [vm_compute; reflexivity|].
  intros out. vm_compute. discriminate.
Qed.

(** C1 (amended). For a grid with at least one column, a start id and
    a pad id of the 64-bit range, such that the start id (when the grid
    has a row) and the input values (the last column apart) are
    non-negative once -100 is replaced by the pad id, [right_shift]
    returns a grid of the same shape; column 0 holds the start id in
    every row and column i >= 1 holds input column i-1, -100 being
    replaced by the pad id at every position. *)
Theorem right_shift_shifts s p l (σ : store) g :
  σ !! l = Some g → wf g → (0 < ncols g)%nat →
  int64 s → int64 p →
  ((0 < nrows g)%nat → 0 ≤ fill p s) →
  (∀ r j v, (j + 1 < ncols g)%nat → at_ g r j = Some v → 0 ≤ fill p v) →
  ∃ l' σ' out,
    right_shift s (Some p) l σ = (Ok l', σ') ∧ σ' !! l' = Some out ∧
    shape out = shape g ∧ wf out ∧
    (∀ r, (r < nrows g)%nat → at_ out r 0 = Some (fill p s)) ∧
    (s ≠ -100 → ∀ r, (r < nrows g)%nat → at_ out r 0 = Some s) ∧
    (∀ r i, (1 ≤ i < ncols g)%nat →
            at_ out r i = fill p <$> at_ g r (i - 1)).
Proof.
  intros Hl Hwf Hc Hs64 Hp64 Hs Hin.
  assert (Hz : ncols g ≠ 0%nat) by lia.
  assert (Hall : all (mask_of (λ a, bool_decide (0 ≤ a)) (after_fill s p g))
                 = true).
  { apply all_nonneg. intros r i v. rewrite at_after_fill by done.
    destruct (rows g !! r) as [row|] eqn:Hrow; [|done]. cbn.
    destruct i as [|j].
    { intros [= <-]. apply Hs. destruct Hwf as [<- _].
      apply lookup_lt_Some in Hrow. lia. }
    destruct (take (ncols g - 1) row !! j) as [a|] eqn:Ha; [|done].
    intros [= <-]. apply lookup_take_Some in Ha as [Ha Hj].
    apply (Hin r j a); [lia|]. unfold at_. by rewrite Hrow. }
  exists (fresh (dom σ)), (right_shift s (Some p) l σ).2, (after_fill s p g).
  rewrite (right_shift_run_int64 s p l σ g Hl) by done.
  rewrite Hall. cbn [fst snd].
  split; [done|]. split; [by rewrite lookup_insert_eq|].
  split; [done|]. split; [by apply wf_after_fill|].
  split; [intros r Hr; by apply at_after_fill_0|].
  split.
  - intros Hne r Hr. rewrite at_after_fill_0 by done.
    unfold fill. by rewrite decide_False.
  - intros r i Hi. by apply at_after_fill_S.
Qed.

(** The example of the specification: [[5, 6, 7]] gives [[1, 5, 6]]. *)
Lemma right_shift_shifts_example :
  (∃ l' σ' out,
    right_shift 1 (Some 0) 1%positive {[1%positive := grid [[5; 6; 7]]]}
    = (Ok l', σ') ∧ σ' !! l' = Some out ∧
    shape out = (1%nat, 3%nat) ∧ wf out ∧
    (∀ r, (r < 1)%nat → at_ out r 0 = Some (fill 0 1)) ∧
    (1 ≠ -100 → ∀ r, (r < 1)%nat → at_ out r 0 = Some 1) ∧
    (∀ r i, (1 ≤ i < 3)%nat →
            at_ out r i = fill 0 <$> at_ (grid [[5; 6; 7]]) r (i - 1)))
  ∧ right_shift_of 1 (Some 0) (grid [[5; 6; 7]]) = Ok (grid [[1; 5; 6]]).
Proof.
  split; [|vm_compute; reflexivity].
  apply (right_shift_shifts 1 0 1%positive
           {[1%positive := grid [[5; 6; 7]]]} (grid [[5; 6; 7]])).
  - apply lookup_singleton_eq.
  - split; [reflexivity|]. repeat constructor.
  - cbn. lia.
  - unfold int64. lia.
  - unfold int64. lia.
  - intros _. vm_compute. discriminate.
  - intros [|r] [|[|j]] v Hj; cbn in Hj; try lia; unfold at_; cbn;
      try discriminate; intros [= <-]; vm_compute; discriminate.
Defined.

(** C2. Whenever [right_shift] returns, the grid it returns holds -100
    nowhere: a pad id was given, and every position that held -100
    after the shift and the write of the start id (a -100 shifted in
    from the input included) holds the pad id. *)
Theorem right_shift_no_sentinel s pad l (σ : store) g l' σ' :
  σ !! l = Some g → right_shift s pad l σ = (Ok l', σ') →
  ∃ p out,
    pad = Some p ∧ σ' !! l' = Some out ∧
    (∀ r i, at_ out r i ≠ Some (-100)) ∧
    (∀ r i, at_ (after_start s g) r i = Some (-100) →
            at_ out r i = Some p) ∧
    (wf g → ∀ r j, (j + 1 < ncols g)%nat → at_ g r j = Some (-100) →
            at_ out r (j + 1) = Some p).
Proof.
  intros Hl Hrun.
  destruct (right_shift_returns _ _ _ _ _ _ _ Hl Hrun)
    as (p & -> & Hz & -> & Hout & Hpos).
  exists p, (after_fill s p g). repeat split; try done.
  - intros r i Hv. specialize (Hpos _ _ _ Hv). lia.
  - intros r i Hv. rewrite at_after_fill_start, Hv. done.
  - intros Hwf r j Hj Hv.
    rewrite at_after_fill_S by (done || lia).
    replace (j + 1 - 1)%nat with j by lia. by rewrite Hv.
Qed.

(** The example of the specification: [[-100, 8, 9]] gives [[1, 0, 8]]. *)
Lemma right_shift_no_sentinel_example :
  (∃ (p : Z) (out : tensor),
    Some 0 = Some p ∧
    (right_shift 1 (Some 0) 1%positive
       {[1%positive := grid [[-100; 8; 9]]]}).2 !! 2%positive = Some out ∧
    (∀ r i, at_ out r i ≠ Some (-100)) ∧
    (∀ r i, at_ (after_start 1 (grid [[-100; 8; 9]])) r i = Some (-100) →
            at_ out r i = Some p) ∧
    (wf (grid [[-100; 8; 9]]) →
     ∀ r j, (j + 1 < ncols (grid [[-100; 8; 9]]%Z))%nat →
            at_ (grid [[-100; 8; 9]]) r j = Some (-100) →
            at_ out r (j + 1) = Some p))
  ∧ right_shift_of 1 (Some 0) (grid [[-100; 8; 9]])
    = Ok (grid [[1; 0; 8]]).
Proof.
  split; [|vm_compute; reflexivity].
  apply (right_shift_no_sentinel 1 (Some 0) 1%positive
           {[1%positive := grid [[-100; 8; 9]]]} (grid [[-100; 8; 9]])).
  - apply lookup_singleton_eq.
  - vm_compute. reflexivity.
Defined.

(** C3, as the claim has it, fails: the write of the start id (line
    31) comes before the assertions. On a grid without a column it
    raises an index error, and with a start id outside the 64-bit range
    an overflow error, so a call without a pad id does not end in the
    assertion there. *)
Lemma right_shift_no_column_raises_index_error :
  (∃ msg, right_shift_of 1 None (mk_tensor (2%nat, 0%nat) [[]; []])
          = Raise (IndexError msg)) ∧
  (∃ e, right_shift_of (2 ^ 63) None (grid [[5; 6; 7]]) = Raise e ∧
        ∀ msg, e ≠ AssertionError msg).
Proof.
  split; [eexists; vm_compute; reflexivity|].
  eexists. split; [vm_compute; reflexivity|]. discriminate.
Qed.

(** C3 (amended). On a grid with at least one column and with a start
    id of the 64-bit range: without a pad id the call ends in the
    assertion of line 33; with a pad id of that range, the grid the
    call has built is the one it returns when all its values are
    non-negative, and the call ends in the assertion of line 38 as soon
    as one value is negative. On every grid and with any ids, a grid
    that is returned holds non-negative values only. *)
Theorem right_shift_assertions s l (σ : store) g :
  σ !! l = Some g →
  ((0 < ncols g)%nat → int64 s →
   (right_shift s None l σ).1 = Raise (AssertionError pad_undefined) ∧
   (∀ p, int64 p → ∃ l1 out,
      σ !! l1 = None ∧
      (right_shift s (Some p) l σ).2 !! l1 = Some out ∧
      ((∃ r i v, at_ out r i = Some v ∧ v < 0) →
       (right_shift s (Some p) l σ).1
       = Raise (AssertionError only_positive)) ∧
      ((∀ r i v, at_ out r i = Some v → 0 ≤ v) →
       (right_shift s (Some p) l σ).1 = Ok l1))) ∧
  (∀ pad l' σ', right_shift s pad l σ = (Ok l', σ') →
      ∃ out, σ' !! l' = Some out ∧
             ∀ r i v, at_ out r i = Some v → 0 ≤ v).
Proof.
  intros Hl. split.
  - intros Hc Hs. assert (Hz : ncols g ≠ 0%nat) by lia. split.
    + rewrite (right_shift_run s None l σ g Hl). cbv zeta.
      by rewrite decide_True, decide_False.
    + intros p Hp. exists (fresh (dom σ)), (after_fill s p g).
      rewrite (right_shift_run_int64 s p l σ g Hl) by done.
      split; [apply fresh_None|]. cbn [fst snd].
      split; [by rewrite lookup_insert_eq|].
      destruct (all _) eqn:Hall.
      * split; [|done]. intros (r & i & v & Hv & Hneg).
        pose proof (proj1 (all_nonneg _) Hall _ _ _ Hv). lia.
      * split; [done|]. intros Hpos.
        pose proof (proj2 (all_nonneg _) Hpos). congruence.
  - intros pad l' σ' Hrun.
    destruct (right_shift_returns _ _ _ _ _ _ _ Hl Hrun)
      as (p & -> & _ & -> & Hout & Hpos).
    by exists (after_fill s p g).
Qed.

(** On [[5, -6, 7]] with start id 1: no pad id ends in the first
    assertion, pad id 0 in the second (the shifted grid is
    [[1, 5, -6]]); on [[5, 6, 7]] the call returns. *)
Lemma right_shift_assertions_example :
  (((0 < ncols (grid [[5; -6; 7]]%Z))%nat → int64 1 →
    (right_shift 1 None 1%positive {[1%positive := grid [[5; -6; 7]]]}).1
    = Raise (AssertionError pad_undefined) ∧
    (∀ p, int64 p → ∃ l1 out,
       ({[1%positive := grid [[5; -6; 7]]]} : store) !! l1 = None ∧
       (right_shift 1 (Some p) 1%positive
          {[1%positive := grid [[5; -6; 7]]]}).2 !! l1 = Some out ∧
       ((∃ r i v, at_ out r i = Some v ∧ v < 0) →
        (right_shift 1 (Some p) 1%positive
           {[1%positive := grid [[5; -6; 7]]]}).1
        = Raise (AssertionError only_positive)) ∧
       ((∀ r i v, at_ out r i = Some v → 0 ≤ v) →
        (right_shift 1 (Some p) 1%positive
           {[1%positive := grid [[5; -6; 7]]]}).1 = Ok l1))) ∧
   (∀ pad l' σ',
       right_shift 1 pad 1%positive {[1%positive := grid [[5; -6; 7]]]}
       = (Ok l', σ') →
       ∃ out, σ' !! l' = Some out ∧
              ∀ r i v, at_ out r i = Some v → 0 ≤ v))
  ∧ (0 < ncols (grid [[5; -6; 7]]%Z))%nat ∧ int64 1 ∧ int64 0
  ∧ right_shift_of 1 None (grid [[5; -6; 7]])
    = Raise (AssertionError pad_undefined)
  ∧ right_shift_of 1 (Some 0) (grid [[5; -6; 7]])
    = Raise (AssertionError only_positive)
  ∧ right_shift_of 1 (Some 0) (grid [[5; 6; 7]]) = Ok (grid [[1; 5; 6]]).
Proof.
  split.
  { apply (right_shift_assertions 1 1%positive
             {[1%positive := grid [[5; -6; 7]]]} (grid [[5; -6; 7]])).
    apply lookup_singleton_eq. }
  split; [cbn; lia|]. split; [unfold int64; lia|].
  split; [unfold int64; lia|].
  repeat split; vm_compute; reflexivity.
Defined.

(** C10. [right_shift] leaves its argument as it was, and every other
    tensor of the store with it, whether it returns or raises; the
    grid it returns is a new object, not the argument. *)
Theorem right_shift_input_unchanged s pad l (σ : store) g :
  σ !! l = Some g →
  (right_shift s pad l σ).2 !! l = Some g ∧
  (∀ k t, σ !! k = Some t → (right_shift s pad l σ).2 !! k = Some t) ∧
  (∀ l', (right_shift s pad l σ).1 = Ok l' → l' ≠ l ∧ σ !! l' = None).
Proof.
  intros Hl. split; [by eapply right_shift_store|].
  split; [by eapply right_shift_store|].
  intros l' Hok.
  destruct (right_shift s pad l σ) as [r σ'] eqn:Hrun. cbn in Hok. subst r.
  destruct (right_shift_returns _ _ _ _ _ _ _ Hl Hrun)
    as (p & _ & _ & -> & _).
  split; [by eapply fresh_ne|apply fresh_None].
Qed.

Lemma right_shift_input_unchanged_example :
  (right_shift 1 (Some 0) 1%positive
     {[1%positive := grid [[-100; 8; 9]]]}).2 !! 1%positive
  = Some (grid [[-100; 8; 9]]) ∧
  (∀ k t, ({[1%positive := grid [[-100; 8; 9]]]} : store) !! k = Some t →
          (right_shift 1 (Some 0) 1%positive
             {[1%positive := grid [[-100; 8; 9]]]}).2 !! k = Some t) ∧
  (∀ l', (right_shift 1 (Some 0) 1%positive
            {[1%positive := grid [[-100; 8; 9]]]}).1 = Ok l' →
         l' ≠ 1%positive ∧
         ({[1%positive := grid [[-100; 8; 9]]]} : store) !! l' = None).
Proof.
  apply (right_shift_input_unchanged 1 (Some 0) 1%positive
           {[1%positive := grid [[-100; 8; 9]]]} (grid [[-100; 8; 9]])).
  apply lookup_singleton_eq.
Defined.

End RightShiftSpec.

(** ** [load_seq2seq_data]: label masking and the choice of collator *)

Module Seq2SeqFacts.
Import Seq2Seq.

Lemma getitem_Some {V} (d : gmap string V) key v :
  d !! key = Some v → getitem d key = Ok v.
Proof. intros H. unfold getitem. by rewrite H. Qed.

(** In the module as it is written no name [model] is bound, and the
    label-aware collator cannot be built. *)
Lemma select_collator_unbound_model (tok : tokenizer) ignore_pad_for_loss :
  select_collator (Model:=unit) tok false ignore_pad_for_loss ∅
  = Raise (NameError "model").
Proof. reflexivity. Qed.

(** Were the name bound, the value that pads the labels would follow
    [ignore_pad_for_loss]: -100 when it is set, the tokenizer's pad id
    when it is not. *)
Lemma select_collator_bound_model {Model} (tok : tokenizer)
    (ignore_pad_for_loss : bool) (globals : gmap string Model) model :
  globals !! "model" = Some model →
  select_collator tok false ignore_pad_for_loss globals
  = Ok (DataCollatorForSeq2Seq tok model
          (if ignore_pad_for_loss then Some sentinel else pad_token_id tok)).
Proof.
  intros Hm. unfold select_collator, global_name. by rewrite Hm.
Qed.

Lemma token_fmap (f : Z → Z) ids i j :
  token ((λ row : list Z, f <$> row) <$> ids) i j = f <$> token ids i j.
Proof.
  unfold token. rewrite list_lookup_fmap.
  destruct (ids !! i) as [row|]; [|done]. apply list_lookup_fmap.
Qed.

End Seq2SeqFacts.

Module Seq2SeqSpec.
Import Files Seq2Seq Seq2SeqFacts.

(** C4. With [pad_to_max_length] and [ignore_pad_for_loss] both set,
    [preprocess] stores under [labels] the tokenized targets in which
    every token equal to the tokenizer's pad id has become -100 and
    every other token is as the tokenizer gave it. *)
Theorem preprocess_masks_pad_labels tok max_src_length max_tgt_length
    prefix (examples : gmap string (list string)) src tgt ids :
  examples !! "source" = Some src →
  examples !! "target" = Some tgt →
  call tok true tgt max_length max_tgt_length !! "input_ids" = Some ids →
  ∃ out labels,
    preprocess tok max_src_length max_tgt_length true true prefix examples
    = Ok out ∧
    out !! "labels" = Some labels ∧
    length labels = length ids ∧
    (∀ i, length <$> labels !! i = length <$> ids !! i) ∧
    (∀ i j t, token ids i j = Some t →
       (pad_token_id tok = Some t → token labels i j = Some (-100)) ∧
       (pad_token_id tok ≠ Some t → token labels i j = Some t)).
Proof.
  intros Hsrc Htgt Hids.
  set (mask := λ _label : Z, if decide (Some _label ≠ pad_token_id tok)
                             then _label else sentinel).
  exists (<["labels" := (λ label : list Z, mask <$> label) <$> ids]>
            (call tok false ((λ i, prefix +:+ i) <$> src) max_length
                  max_src_length)),
         ((λ label : list Z, mask <$> label) <$> ids).
  split.
  { unfold preprocess, padding_arg. cbn [andb].
    rewrite (getitem_Some _ _ _ Hsrc). cbn [mbind res_bind].
    rewrite (getitem_Some _ _ _ Htgt). cbn [mbind res_bind].
    rewrite (getitem_Some _ _ _ Hids). cbn [mbind res_bind mret res_ret].
    rewrite (getitem_Some _ "input_ids" _ (lookup_insert_eq _ _ _)).
    reflexivity. }
  split; [apply lookup_insert_eq|].
  split; [by rewrite length_fmap|].
  split.
  { intros i. rewrite list_lookup_fmap.
    destruct (ids !! i); [|done]. cbn. by rewrite length_fmap. }
  intros i j t Ht. rewrite token_fmap, Ht. cbn. unfold mask, sentinel.
  split; intros Hp.
  - rewrite decide_False; [done|]. intros Hne. by apply Hne.
  - rewrite decide_True; [done|]. congruence.
Qed.

(** The example of the specification: target tokens [3, 4, 0, 0] with
    pad id 0 give the labels [3, 4, -100, -100]. *)
Lemma preprocess_masks_pad_labels_example :
  (∃ out labels,
    preprocess toy_tokenizer 8 4 true true "" toy_examples = Ok out ∧
    out !! "labels" = Some labels ∧
    length labels = length [[3; 4; 0; 0]] ∧
    (∀ i, length <$> labels !! i
          = length <$> ([[3; 4; 0; 0]] : list (list Z)) !! i) ∧
    (∀ i j t, token [[3; 4; 0; 0]] i j = Some t →
       (pad_token_id toy_tokenizer = Some t →
        token labels i j = Some (-100)) ∧
       (pad_token_id toy_tokenizer ≠ Some t →
        token labels i j = Some t)))
  ∧ (preprocess toy_tokenizer 8 4 true true "" toy_examples
       ≫= λ out, getitem out "labels")
    = Ok [[3; 4; -100; -100]].
Proof.
  split; [|vm_compute; reflexivity].
  apply (preprocess_masks_pad_labels toy_tokenizer 8 4 "" toy_examples
           ["hello"] ["bonjour"] [[3; 4; 0; 0]]).
  - vm_compute. reflexivity.
  - vm_compute. reflexivity.
  - vm_compute. reflexivity.
Defined.

(** C5 does not hold of the code. With [pad_to_max_length] off the
    collator is built from [model], a name that neither the function nor
    the module binds (the parameter is commented out at line 83): for
    either value of [ignore_pad_for_loss] the selection of lines 159-166
    raises [NameError] and no collator exists; and a call of
    [load_seq2seq_data] whose file check passes and whose dataset is
    loaded, cut and mapped without error ends in that [NameError]
    instead of returning. *)
Theorem load_seq2seq_data_builds_no_collator {Model Dataset}
    (fname : PosixPath) (tok : tokenizer)
    (max_src_length max_tgt_length max_samples : Z)
    (ignore_pad_for_loss : bool) (split prefix : string)
    (load_dataset : PosixPath → string → res Dataset)
    (len : Dataset → res Z) (select_range : Z → Dataset → res Dataset)
    (map_batched : (gmap string (list string) → res encoding) →
                   Dataset → res Dataset)
    (globals : gmap string Model) (disk : gmap PosixPath string) :
  globals !! "model" = None →
  (∀ ignore_pad_for_loss : bool,
     select_collator tok false ignore_pad_for_loss globals
     = Raise (NameError "model")) ∧
  (∀ d0 d1 d2 : Dataset,
     suffix fname = ".json" → is_Some (disk !! fname) →
     load_dataset fname split = Ok d0 →
     (if bool_decide (0 < max_samples)
      then n ← len d0; select_range (Z.min max_samples n) d0
      else Ok d0) = Ok d1 →
     map_batched (preprocess tok max_src_length max_tgt_length false
                             ignore_pad_for_loss prefix) d1 = Ok d2 →
     load_seq2seq_data fname tok max_src_length max_tgt_length false
       max_samples ignore_pad_for_loss split prefix load_dataset len
       select_range map_batched globals disk
     = Raise (NameError "model")).
Proof.
  intros Hm.
  assert (Hsel : ∀ b : bool,
            select_collator tok false b globals = Raise (NameError "model")).
  { intros b. unfold select_collator, global_name. by rewrite Hm. }
  split; [done|].
  intros d0 d1 d2 Hs Hf Hload Hcut Hmap.
  unfold load_seq2seq_data, exists_.
  rewrite (bool_decide_true (suffix fname ∈ [".json"]))
    by (rewrite Hs; apply list_elem_of_here).
  rewrite (bool_decide_true (is_Some _)) by done.
  cbn [negb orb]. rewrite Hload. cbn [mbind res_bind mret res_ret].
  destruct (bool_decide (0 < max_samples)).
  - destruct (len d0) as [n|e]; cbn [mbind res_bind] in Hcut |- *; [|done].
    rewrite Hcut. cbn [mbind res_bind]. rewrite Hmap. cbn [mbind res_bind].
    by rewrite Hsel.
  - injection Hcut as ->. cbn [mbind res_bind mret res_ret].
    rewrite Hmap. cbn [mbind res_bind]. by rewrite Hsel.
Qed.

(** The file [data/train.json] exists, its three records are loaded,
    cut to two and mapped, and the call ends in the [NameError]. *)
Lemma load_seq2seq_data_builds_no_collator_example :
  select_collator (Model:=unit) toy_tokenizer false true ∅
  = Raise (NameError "model") ∧
  select_collator (Model:=unit) toy_tokenizer false false ∅
  = Raise (NameError "model") ∧
  load_seq2seq_data (Model:=unit) train_json toy_tokenizer 8 4 false 2
    true "train" "" toy_load_dataset toy_len toy_select_range
    toy_map_batched ∅ disk_with_train_json
  = Raise (NameError "model").
Proof.
  destruct (load_seq2seq_data_builds_no_collator (Model:=unit)
              train_json toy_tokenizer 8 4 2 true "train" ""
              toy_load_dataset toy_len toy_select_range toy_map_batched
              ∅ disk_with_train_json (lookup_empty _)) as [Hsel Hrun].
  split; [apply Hsel|]. split; [apply Hsel|].
  apply (Hrun [1; 2; 3]%nat [1; 2]%nat [1; 2]%nat).
  - vm_compute. reflexivity.
  - exists "{}". vm_compute. reflexivity.
  - reflexivity.
  - vm_compute. reflexivity.
  - reflexivity.
Defined.

End Seq2SeqSpec.

(** ** [TrainingAgent]: what the epoch loop does as it is written *)

Module TrainFacts.
Import Train PyFacts.

Section TrainingAgent.
Context {T L F : Type}.
Variables (fzero : F) (fadd fsub : F → F → F) (gt0 : F → bool).
Variables (forward : T → T → T → L) (mean : L → L) (item : L → F).
Variable clock : nat → F.

Lemma foldM_raise {S A B} (f : A → B → M S A) a b l (σ σ' : S) e :
  f a b σ = (Raise e, σ') → foldM f a (b :: l) σ = (Raise e, σ').
Proof. intros H. cbn. unfold mbind, M_bind, Py.bind. by rewrite H. Qed.

(** A first turn of the training loop, [input_mask] not yet
    assigned, never gets to the forward pass. *)
Lemma train_step_first (a : agent) (train_loss : F) batch σ :
  train_step fadd gt0 forward mean item (self_ a) (train_loss, None)
             batch σ
  = (Raise (first_turn_error a),
     mk_state (log σ ++ first_turn_log a) (grad_enabled σ) (ticks σ)).
Proof.
  destruct a as [[ids|] c d tl vl s], batch as [[inputs mask] targets];
    cbv -[bool_decide app]; [|reflexivity].
  destruct (bool_decide (d = "cuda")); cbn; [|done].
  rewrite app_nil_r. by destruct σ.
Qed.

Lemma epoch_iteration_run (a : agent) trial epoch σ :
  epoch_iteration fzero fadd gt0 forward mean item (self_ a) trial epoch σ
  = match train_loader a with
    | [] => (Ok fzero, logged (Call "model" "train") σ)
    | _ :: _ =>
        (Raise (first_turn_error a),
         mk_state (log σ ++ [Call "model" "train"] ++ first_turn_log a)
                  (grad_enabled σ) (ticks σ))
    end.
Proof.
  destruct (train_loader a) as [|b tl] eqn:Htl.
  - destruct a as [g c d tl vl s]. cbn in Htl. subst tl. reflexivity.
  - assert (Hstep :
      foldM (train_step fadd gt0 forward mean item (self_ a))
            (fzero, None) (b :: tl) (logged (Call "model" "train") σ)
      = (Raise (first_turn_error a),
         mk_state (log σ ++ [Call "model" "train"] ++ first_turn_log a)
                  (grad_enabled σ) (ticks σ))).
    { apply foldM_raise. rewrite train_step_first.
      unfold logged. cbn [log grad_enabled ticks].
      by rewrite <- app_assoc. }
    destruct a as [g c d tl' vl s]. cbn [train_loader] in Htl. subst tl'.
    cbv -[foldM train_step first_turn_error first_turn_log app].
    cbv -[foldM train_step first_turn_error first_turn_log app] in Hstep.
    by rewrite Hstep.
Qed.

(** A turn of the validation loop stops at [self.gpu]. *)
Lemma validate_step_raises (a : agent) locals batch σ :
  validate_step fadd forward mean item (self_ a) locals batch σ
  = (Raise (AttributeError "gpu"), σ).
Proof.
  by destruct a, locals as [val_loss input_mask],
              batch as [[inputs mask] targets].
Qed.

Lemma validate_run (a : agent) epoch σ :
  validate fzero fadd forward mean item (self_ a) epoch σ
  = (match val_loader a with
     | [] => Ok fzero
     | _ :: _ => Raise (AttributeError "gpu")
     end, logged (Call "model" "eval") σ).
Proof.
  destruct (val_loader a) as [|b vl] eqn:Hvl.
  - destruct a as [g c d tl vl s]. cbn in Hvl. subst vl. reflexivity.
  - pose proof (foldM_raise _ _ _ vl _ _ _
      (validate_step_raises a (fzero, None) b
         (logged (Call "model" "eval") σ))) as Hstep.
    destruct a as [g c d tl vl' s]. cbn [val_loader] in Hvl. subst vl'.
    cbv -[foldM validate_step app].
    cbv -[foldM validate_step app] in Hstep.
    by rewrite Hstep.
Qed.

(** A turn of the loop of [run_epochs]: past the training pass it
    stops at [self.evaluate]. *)
Lemma run_epoch_run (a : agent) trial epoch σ :
  run_epoch fzero fadd fsub gt0 forward mean item clock (self_ a)
            trial tt epoch σ
  = match train_loader a with
    | [] =>
        (Raise (AttributeError "evaluate"),
         mk_state (log σ ++ [Call "model" "train"]) (grad_enabled σ)
                  (S (S (ticks σ))))
    | _ :: _ =>
        (Raise (first_turn_error a),
         mk_state (log σ ++ [Call "model" "train"] ++ first_turn_log a)
                  (grad_enabled σ) (S (ticks σ)))
    end.
Proof.
  pose proof (epoch_iteration_run a trial epoch
                (mk_state (log σ) (grad_enabled σ) (S (ticks σ))))
    as Hrun.
  destruct a as [g c d tl vl s]. cbn [train_loader] in *.
  cbv -[epoch_iteration first_turn_error first_turn_log app].
  cbv -[epoch_iteration first_turn_error first_turn_log app] in Hrun.
  rewrite Hrun. by destruct tl.
Qed.

Lemma run_epochs_run (a : agent) trial epoch epochs σ :
  run_epochs fzero fadd fsub gt0 forward mean item clock (self_ a)
             trial (epoch :: epochs) σ
  = match train_loader a with
    | [] =>
        (Raise (AttributeError "evaluate"),
         mk_state (log σ ++ [Call "model" "train"]) (grad_enabled σ)
                  (S (S (ticks σ))))
    | _ :: _ =>
        (Raise (first_turn_error a),
         mk_state (log σ ++ [Call "model" "train"] ++ first_turn_log a)
                  (grad_enabled σ) (S (ticks σ)))
    end.
Proof.
  unfold run_epochs.
  destruct (train_loader a) eqn:Htl; apply foldM_raise;
    by rewrite run_epoch_run, Htl.
Qed.

End TrainingAgent.
End TrainFacts.

Module TrainSpec.
Import Train PyFacts TrainFacts.

Section TrainingAgent.
Context {T L F : Type}.
Variables (fzero : F) (fadd fsub : F → F → F) (gt0 : F → bool).
Variables (forward : T → T → T → L) (mean : L → L) (item : L → F).
Variable clock : nat → F.

(** C6 does not hold of the code. A turn of [run_epochs] runs the
    training pass and then asks the agent for [evaluate], a name the
    class does not define (its validation pass is [validate]): the
    call raises, no validation pass is run, nothing is printed. With
    batches to train on, the training pass itself raises first.
    Called on its own, [validate] stops at [self.gpu] on its first
    batch, before any forward pass. *)
Theorem run_epochs_never_validates (a : agent) trial epoch epochs σ :
  (run_epochs fzero fadd fsub gt0 forward mean item clock (self_ a)
              trial (epoch :: epochs) σ).1
  = Raise (match train_loader a with
           | [] => AttributeError "evaluate"
           | _ :: _ => first_turn_error a
           end)
  ∧ log (run_epochs fzero fadd fsub gt0 forward mean item clock
                    (self_ a) trial (epoch :: epochs) σ).2
    = log σ ++ [Call "model" "train"]
            ++ match train_loader a with
               | [] => []
               | _ :: _ => first_turn_log a
               end
  ∧ validate fzero fadd forward mean item (self_ a) epoch σ
    = (match val_loader a with
       | [] => Ok fzero
       | _ :: _ => Raise (AttributeError "gpu")
       end, logged (Call "model" "eval") σ).
Proof.
  rewrite run_epochs_run, validate_run.
  destruct (train_loader a); cbn [fst snd log]; by rewrite ?app_nil_r.
Qed.

(** C7 does not hold of the code. [epoch_iteration] returns a number
    only when there is no batch, and the number is then the initial 0;
    with one batch or more the first turn raises and no sum of
    losses is returned. *)
Theorem epoch_iteration_returns_no_sum (a : agent) trial epoch σ :
  (epoch_iteration fzero fadd gt0 forward mean item (self_ a)
                   trial epoch σ).1
  = match train_loader a with
    | [] => Ok fzero
    | _ :: _ => Raise (first_turn_error a)
    end.
Proof. rewrite epoch_iteration_run. by destruct (train_loader a). Qed.

(** C8 does not hold of the code. A first training step does not get
    past the call that zeroes the gradients: with the transfer to the
    device it raises before any call on the optimizer or the model,
    without it it zeroes the gradients and raises; no forward pass,
    backward pass, clipping, optimizer step or scheduler step is
    logged in the epoch. *)
Theorem training_step_cut_short (a : agent) trial epoch train_loss
    batch σ :
  train_step fadd gt0 forward mean item (self_ a) (train_loss, None)
             batch σ
  = (Raise (first_turn_error a),
     mk_state (log σ ++ first_turn_log a) (grad_enabled σ) (ticks σ))
  ∧ log (epoch_iteration fzero fadd gt0 forward mean item (self_ a)
                         trial epoch σ).2
    = log σ ++ [Call "model" "train"]
            ++ match train_loader a with
               | [] => []
               | _ :: _ => first_turn_log a
               end
  ∧ (first_turn_log a = [] ∨
     first_turn_log a = [Call "optimizer" "zero_grad"]).
Proof.
  split; [apply train_step_first|]. split.
  - rewrite epoch_iteration_run.
    destruct (train_loader a); cbn [snd log logged]; by rewrite ?app_nil_r.
  - unfold first_turn_log. destruct (on_cuda a); auto.
Qed.

End TrainingAgent.

(** The three theorems at an agent with one batch on each loader, no
    device list, and at one with no batch at all. *)
Lemma run_epochs_idle_agent :
  run_epochs 0 Z.add Z.sub (Z.ltb 0) (λ a b c, a + b + c) id id Z.of_nat
             (self_ idle_agent) 0 [0%nat] start
  = (Raise (AttributeError "evaluate"),
     mk_state [Call "model" "train"] true 2).
Proof. vm_compute. reflexivity. Qed.

Lemma epoch_iteration_toy_agent :
  epoch_iteration 0 Z.add (Z.ltb 0) (λ a b c, a + b + c) id id
                  (self_ toy_agent) 0 0 start
  = (Raise (UnboundLocalError "input_mask"),
     mk_state [Call "model" "train"; Call "optimizer" "zero_grad"] true 0).
Proof. vm_compute. reflexivity. Qed.

End TrainSpec.

(** ** [extend_vocabulary]: what reaches [add_tokens] *)

Module VocabularyFacts.
Import Files Vocabulary PyFacts.

Lemma extend_vocabulary_rejects (disk : fs) fname t :
  suffix fname ≠ ".txt" ∨ disk !! fname = None →
  extend_vocabulary disk fname t
  = (Raise (ValueError (unknown_src_file fname)), t).
Proof.
  intros H. unfold extend_vocabulary, exists_.
  destruct H as [H|H].
  - rewrite bool_decide_false; [done|]. by rewrite list_elem_of_singleton.
  - rewrite (bool_decide_false (is_Some _)), orb_true_r; [done|].
    rewrite H. by intros [? ?].
Qed.

Lemma extend_vocabulary_adds (disk : fs) fname text t :
  suffix fname = ".txt" → disk !! fname = Some text →
  extend_vocabulary disk fname t
  = (Ok tt,
     mk_tokenizer (add_tokens_calls t
                   ++ [strip <$> readlines (universal_newlines text)])).
Proof.
  intros Hs Hf. unfold extend_vocabulary, exists_, open_.
  rewrite bool_decide_true by (rewrite Hs; apply list_elem_of_here).
  rewrite bool_decide_true by (rewrite Hf; eauto).
  cbn. by rewrite Hf.
Qed.

End VocabularyFacts.

Module VocabularySpec.
Import Files Vocabulary PyFacts VocabularyFacts.

(** C9 does not hold of the code. A missing file and a file that is not
    a [.txt] file end in the [ValueError]; but every line of the file
    reaches [add_tokens], stripped, the empty ones as the empty
    string: the file with the lines [a], an empty line and [b] makes
    [add_tokens] receive ["a"; ""; "b"], where the sibling reader
    [read_lines] gives ["a"; "b"] for the same file. *)
Theorem extend_vocabulary_adds_empty_line :
  extend_vocabulary disk_with_blank_line vocab_txt (mk_tokenizer [])
  = (Ok tt, mk_tokenizer [["a"; ""; "b"]])
  ∧ read_lines disk_with_blank_line vocab_txt = Ok ["a"; "b"]
  ∧ extend_vocabulary disk_with_blank_line ["data"; "vocab.json"]
                      (mk_tokenizer [])
    = (Raise (ValueError (unknown_src_file ["data"; "vocab.json"])),
       mk_tokenizer [])
  ∧ extend_vocabulary disk_with_blank_line ["data"; "other.txt"]
                      (mk_tokenizer [])
    = (Raise (ValueError (unknown_src_file ["data"; "other.txt"])),
       mk_tokenizer []).
Proof. repeat split; vm_compute; reflexivity. Qed.

End VocabularySpec.


(** * Further properties *)

(** ** [right_shift]: when it returns, what it reads, degenerate shapes *)

Module RightShiftMore.
Import Tensor RightShift PyFacts TensorFacts RightShiftFacts.

(** A call on a store that holds the argument alone. *)
Lemma right_shift_of_run s pad g :
  right_shift_of s pad g =
    if decide (int64 s) then
      if decide (ncols g = 0%nat) then
        Raise (IndexError index_0_out_of_bounds)
      else
        match pad with
        | None => Raise (AssertionError pad_undefined)
        | Some p =>
            if decide (int64 p) then
              if all (mask_of (λ a, bool_decide (0 ≤ a)) (after_fill s p g))
              then Ok (after_fill s p g)
              else Raise (AssertionError only_positive)
            else Raise (RuntimeError overflow)
        end
    else Raise (RuntimeError overflow).
Proof.
  unfold right_shift_of.
  rewrite (right_shift_run s pad 1%positive {[1%positive := g]} g)
    by apply lookup_singleton_eq.
  cbv zeta. destruct (decide (int64 s)); [|done].
  destruct (decide (ncols g = 0%nat)); [done|].
  destruct pad as [p|]; [|done].
  destruct (decide (int64 p)); [|done].
  destruct (all _); [|done]. by rewrite lookup_insert_eq.
Qed.

(** The values of the shifted grid are non-negative exactly when the
    start id (if there is a row to write it in) and the input outside
    its last column are, once -100 has become the pad id. *)
Lemma after_fill_nonneg s p g :
  wf g → ncols g ≠ 0%nat →
  (∀ r i v, at_ (after_fill s p g) r i = Some v → 0 ≤ v) ↔
  ((0 < nrows g)%nat → 0 ≤ fill p s) ∧
  (∀ r j v, (j + 1 < ncols g)%nat → at_ g r j = Some v → 0 ≤ fill p v).
Proof.
  intros Hwf Hz. split.
  - intros H. split.
    + intros Hr. apply (H 0%nat 0%nat). by apply at_after_fill_0.
    + intros r j v Hj Hv. apply (H r (j + 1)%nat).
      rewrite at_after_fill_S by (done || lia).
      replace (j + 1 - 1)%nat with j by lia. by rewrite Hv.
  - intros [Hs Hin] r i v. rewrite at_after_fill by done.
    destruct (rows g !! r) as [row|] eqn:Hrow; [|done]. cbn.
    destruct i as [|j].
    + intros [= <-]. apply Hs. destruct Hwf as [<- _].
      apply lookup_lt_Some in Hrow. lia.
    + destruct (take (ncols g - 1) row !! j) as [a|] eqn:Ha; [|done].
      intros [= <-]. apply lookup_take_Some in Ha as [Ha Hj].
      apply (Hin r j a); [lia|]. unfold at_. by rewrite Hrow.
Qed.

(** X1. [right_shift] returns exactly when the grid has a column, the
    start id is of the 64-bit range, a pad id of that range is given,
    and the start id (when the grid has a row) and every input value
    outside the last column are non-negative once -100 is read as the
    pad id; in every other case it raises. *)
Theorem right_shift_returns_iff s pad l (σ : store) g :
  σ !! l = Some g → wf g →
  (∃ l' σ', right_shift s pad l σ = (Ok l', σ')) ↔
  (0 < ncols g)%nat ∧ int64 s ∧
  ∃ p, pad = Some p ∧ int64 p ∧
       ((0 < nrows g)%nat → 0 ≤ fill p s) ∧
       (∀ r j v, (j + 1 < ncols g)%nat → at_ g r j = Some v →
                 0 ≤ fill p v).
Proof.
  intros Hl Hwf. split.
  - intros (l' & σ' & Hrun).
    destruct (right_shift_returns_int64 _ _ _ _ _ _ _ Hl Hrun) as [Hs Hp].
    destruct (right_shift_returns _ _ _ _ _ _ _ Hl Hrun)
      as (p & -> & Hz & _ & _ & Hpos).
    split; [lia|]. split; [done|]. exists p. split; [done|].
    split; [by apply Hp|]. by apply after_fill_nonneg.
  - intros (Hc & Hs64 & p & -> & Hp64 & Hs & Hin).
    assert (Hz : ncols g ≠ 0%nat) by lia.
    rewrite (right_shift_run_int64 s p l σ g Hl) by done.
    rewrite (proj2 (all_nonneg _)); [by eauto|].
    by apply after_fill_nonneg.
Qed.

(** On [[-100, 8, -9]] with start id 1 and pad id 0 the call returns:
    the -100 becomes 0 and the -9 of the last column is not read. With
    the start id 2^63 it does not. *)
Lemma right_shift_returns_iff_example :
  ((∃ l' σ', right_shift 1 (Some 0) 1%positive
               {[1%positive := grid [[-100; 8; -9]]]} = (Ok l', σ')) ↔
   (0 < ncols (grid [[-100; 8; -9]]%Z))%nat ∧ int64 1 ∧
   ∃ p, Some 0 = Some p ∧ int64 p ∧
        ((0 < nrows (grid [[-100; 8; -9]]%Z))%nat → 0 ≤ fill p 1) ∧
        (∀ r j v, (j + 1 < ncols (grid [[-100; 8; -9]]%Z))%nat →
                  at_ (grid [[-100; 8; -9]]) r j = Some v → 0 ≤ fill p v))
  ∧ right_shift_of 1 (Some 0) (grid [[-100; 8; -9]])
    = Ok (grid [[1; 0; 8]])
  ∧ ¬ (∃ l' σ', right_shift (2 ^ 63) (Some 0) 1%positive
                  {[1%positive := grid [[-100; 8; -9]]]} = (Ok l', σ')).
Proof.
  split; [|split].
  - apply (right_shift_returns_iff 1 (Some 0) 1%positive
             {[1%positive := grid [[-100; 8; -9]]]} (grid [[-100; 8; -9]])).
    + apply lookup_singleton_eq.
    + split; [reflexivity|]. repeat constructor.
  - vm_compute. reflexivity.
  - intros Hret.
    apply (right_shift_returns_iff (2 ^ 63) (Some 0) 1%positive
             {[1%positive := grid [[-100; 8; -9]]]} (grid [[-100; 8; -9]]))
      in Hret as (_ & Hs & _).
    + unfold int64 in Hs. lia.
    + apply lookup_singleton_eq.
    + split; [reflexivity|]. repeat constructor.
Defined.

(** X2. The last column of the input is never read: two grids of the
    same shape that agree outside their last column make [right_shift]
    end the same way, with the same grid when it returns. *)
Theorem right_shift_ignores_last_column s pad g1 g2 :
  wf g1 → wf g2 → shape g1 = shape g2 →
  (∀ r j, (j + 1 < ncols g1)%nat → at_ g1 r j = at_ g2 r j) →
  right_shift_of s pad g1 = right_shift_of s pad g2.
Proof.
  intros Hwf1 Hwf2 Hsh Hag.
  assert (Hc : ncols g1 = ncols g2) by (unfold ncols; by rewrite Hsh).
  assert (Hn : nrows g1 = nrows g2) by (unfold nrows; by rewrite Hsh).
  rewrite !right_shift_of_run, <- Hc.
  destruct (decide (int64 s)); [|done].
  destruct (decide (ncols g1 = 0%nat)) as [|Hz]; [done|].
  destruct pad as [p|]; [|done].
  assert (Heq : after_fill s p g1 = after_fill s p g2).
  { assert (Hrows : rows (after_fill s p g1) = rows (after_fill s p g2)).
    { rewrite !rows_after_fill, !rows_after_start by (done || congruence).
      rewrite <- Hc. f_equal.
      destruct Hwf1 as [Hn1 Hc1], Hwf2 as [Hn2 Hc2].
      apply list_eq. intros r. rewrite !list_lookup_fmap.
      destruct (rows g1 !! r) as [row1|] eqn:H1,
               (rows g2 !! r) as [row2|] eqn:H2; cbn.
      - do 2 f_equal. apply list_eq. intros j.
        destruct (decide (j < ncols g1 - 1)%nat) as [Hj|Hj].
        + rewrite !lookup_take_lt by done.
          specialize (Hag r j ltac:(lia)). unfold at_ in Hag.
          by rewrite H1, H2 in Hag.
        + by rewrite !lookup_take_ge by lia.
      - apply lookup_lt_Some in H1. apply lookup_ge_None in H2. lia.
      - apply lookup_lt_Some in H2. apply lookup_ge_None in H1. lia.
      - done. }
    unfold after_fill in *. cbn [rows] in Hrows. rewrite Hrows.
    by rewrite Hsh. }
  by rewrite Heq.
Qed.

Lemma right_shift_ignores_last_column_example :
  right_shift_of 1 (Some 0) (grid [[5; 6; 7]])
  = right_shift_of 1 (Some 0) (grid [[5; 6; -42]]).
Proof.
  apply right_shift_ignores_last_column.
  - split; [reflexivity|]. repeat constructor.
  - split; [reflexivity|]. repeat constructor.
  - reflexivity.
  - intros [|r] [|[|j]] Hj; cbn in Hj; try lia; reflexivity.
Defined.

(** X3. On a grid without a column the call neither returns nor
    reaches an assertion, whatever the start id and the pad id, a
    missing pad id included: the write of the start id (line 31) comes
    first, and with a start id of the 64-bit range it raises the index
    error. *)
Theorem right_shift_no_column s pad l (σ : store) g :
  σ !! l = Some g → ncols g = 0%nat →
  ∃ e, (right_shift s pad l σ).1 = Raise e ∧
       (∀ msg, e ≠ AssertionError msg) ∧
       (int64 s → ∃ msg, e = IndexError msg).
Proof.
  intros Hl Hz. rewrite (right_shift_run s pad l σ g Hl). cbv zeta.
  destruct (decide (int64 s)) as [Hs|Hs].
  - rewrite decide_True by done. eexists. split; [done|].
    split; [done|]. eauto.
  - eexists. split; [done|]. split; [done|]. done.
Qed.

Lemma right_shift_no_column_example :
  (∃ e, (right_shift (-7) None 1%positive
           {[1%positive := mk_tensor (2%nat, 0%nat) [[]; []]]}).1 = Raise e ∧
        (∀ msg, e ≠ AssertionError msg) ∧
        (int64 (-7) → ∃ msg, e = IndexError msg))
  ∧ int64 (-7).
Proof.
  split; [|unfold int64; lia].
  apply (right_shift_no_column (-7) None 1%positive _
           (mk_tensor (2%nat, 0%nat) [[]; []])).
  - apply lookup_singleton_eq.
  - reflexivity.
Defined.

(** X4. A grid with columns but no row comes back as a new grid of the
    same shape, for any start id and any pad id of the 64-bit range,
    negative ones included: there is no position for the assertion of
    line 38 to look at. *)
Theorem right_shift_no_row s p l (σ : store) g :
  σ !! l = Some g → wf g → nrows g = 0%nat → ncols g ≠ 0%nat →
  int64 s → int64 p →
  ∃ l' σ', right_shift s (Some p) l σ = (Ok l', σ') ∧ l' ≠ l ∧
           σ' !! l' = Some (mk_tensor (shape g) []).
Proof.
  intros Hl [Hn Hc] Hr Hz Hs Hp.
  assert (Hrows : rows g = []).
  { apply length_zero_iff_nil. congruence. }
  rewrite (right_shift_run_int64 s p l σ g Hl) by done.
  assert (Hfill : after_fill s p g = mk_tensor (shape g) []).
  { unfold after_fill, mask_of, after_start, after_shift, zeros, but_last.
    cbn [rows]. by rewrite Hrows, Hr. }
  rewrite Hfill. cbn. eexists _, _. split; [done|].
  split; [by eapply fresh_ne|]. by rewrite lookup_insert_eq.
Qed.

Lemma right_shift_no_row_example :
  ∃ l' σ', right_shift (-7) (Some (-3)) 1%positive
             {[1%positive := mk_tensor (0%nat, 3%nat) []]} = (Ok l', σ') ∧
           l' ≠ 1%positive ∧
           σ' !! l' = Some (mk_tensor (0%nat, 3%nat) []).
Proof.
  apply (right_shift_no_row (-7) (-3) 1%positive
           {[1%positive := mk_tensor (0%nat, 3%nat) []]}
           (mk_tensor (0%nat, 3%nat) [])).
  - apply lookup_singleton_eq.
  - split; [reflexivity|]. constructor.
  - reflexivity.
  - discriminate.
  - unfold int64. lia.
  - unfold int64. lia.
Defined.

End RightShiftMore.

(** ** [preprocess] and [load_seq2seq_data]: errors, fields, and the way
       back through [right_shift] *)

Module Seq2SeqMore.
Import Tensor RightShift RightShiftFacts RightShiftMore.
Import Files Seq2Seq Seq2SeqFacts.

Lemma getitem_None {V} (d : gmap string V) key :
  d !! key = None → getitem d key = Raise (KeyError key).
Proof. intros H. unfold getitem. by rewrite H. Qed.

(** The call, once the three lookups it makes have succeeded. *)
Lemma preprocess_run tok max_src_length max_tgt_length pad_to_max_length
    ignore_pad_for_loss prefix (examples : gmap string (list string))
    src tgt ids :
  examples !! "source" = Some src →
  examples !! "target" = Some tgt →
  call tok true tgt (padding_arg pad_to_max_length) max_tgt_length
    !! "input_ids" = Some ids →
  preprocess tok max_src_length max_tgt_length pad_to_max_length
             ignore_pad_for_loss prefix examples
  = Ok (<["labels" :=
           if pad_to_max_length && ignore_pad_for_loss
           then (λ label : list Z,
                   (λ _label, if decide (Some _label ≠ pad_token_id tok)
                              then _label else sentinel) <$> label) <$> ids
           else ids]>
          (call tok false ((λ i, prefix +:+ i) <$> src)
                (padding_arg pad_to_max_length) max_src_length)).
Proof.
  intros Hsrc Htgt Hids. unfold preprocess.
  rewrite (getitem_Some _ _ _ Hsrc). cbn [mbind res_bind].
  rewrite (getitem_Some _ _ _ Htgt). cbn [mbind res_bind].
  destruct (pad_to_max_length && ignore_pad_for_loss).
  - rewrite (getitem_Some _ _ _ Hids). cbn [mbind res_bind mret res_ret].
    by rewrite (getitem_Some _ "input_ids" _ (lookup_insert_eq _ _ _)).
  - cbn [mbind res_bind mret res_ret].
    by rewrite (getitem_Some _ _ _ Hids).
Qed.

(** A call that returns has found its three keys. *)
Lemma preprocess_returns tok max_src_length max_tgt_length
    pad_to_max_length ignore_pad_for_loss prefix
    (examples : gmap string (list string)) out :
  preprocess tok max_src_length max_tgt_length pad_to_max_length
             ignore_pad_for_loss prefix examples = Ok out →
  ∃ src tgt ids,
    examples !! "source" = Some src ∧ examples !! "target" = Some tgt ∧
    call tok true tgt (padding_arg pad_to_max_length) max_tgt_length
      !! "input_ids" = Some ids.
Proof.
  unfold preprocess.
  destruct (examples !! "source") as [src|] eqn:Hsrc.
  2: { by rewrite (getitem_None _ _ Hsrc). }
  rewrite (getitem_Some _ _ _ Hsrc). cbn [mbind res_bind].
  destruct (examples !! "target") as [tgt|] eqn:Htgt.
  2: { by rewrite (getitem_None _ _ Htgt). }
  rewrite (getitem_Some _ _ _ Htgt). cbn [mbind res_bind].
  destruct (call tok true tgt (padding_arg pad_to_max_length)
                 max_tgt_length !! "input_ids") as [ids|] eqn:Hids.
  { intros _. by exists src, tgt, ids. }
  destruct (pad_to_max_length && ignore_pad_for_loss);
    cbn [mbind res_bind mret res_ret];
    by rewrite (getitem_None _ _ Hids).
Qed.

(** X6. Labels are the tokenized targets, token for token, whenever the
    two flags are not both set, and also, with both set, when the
    tokenizer has no pad id. *)
Theorem preprocess_labels_unmasked tok max_src_length max_tgt_length
    pad_to_max_length ignore_pad_for_loss prefix
    (examples : gmap string (list string)) src tgt ids :
  examples !! "source" = Some src →
  examples !! "target" = Some tgt →
  call tok true tgt (padding_arg pad_to_max_length) max_tgt_length
    !! "input_ids" = Some ids →
  pad_to_max_length && ignore_pad_for_loss = false
  ∨ pad_token_id tok = None →
  ∃ out, preprocess tok max_src_length max_tgt_length pad_to_max_length
                    ignore_pad_for_loss prefix examples = Ok out
         ∧ out !! "labels" = Some ids.
Proof.
  intros Hsrc Htgt Hids Hoff.
  rewrite (preprocess_run _ _ _ _ _ _ _ _ _ _ Hsrc Htgt Hids).
  eexists. split; [done|]. rewrite lookup_insert_eq. f_equal.
  destruct Hoff as [->|Hnone]; [done|].
  destruct (_ && _); [|done]. rewrite Hnone.
  rewrite <- (list_fmap_id ids) at 2. apply list_fmap_ext. intros _ row _.
  rewrite <- (list_fmap_id row) at 2. apply list_fmap_ext. intros _ t _.
  by rewrite decide_True.
Qed.

Lemma preprocess_labels_unmasked_example :
  ∃ out, preprocess toy_tokenizer 8 4 true false "" toy_examples = Ok out
         ∧ out !! "labels" = Some [[3; 4; 0; 0]].
Proof.
  apply (preprocess_labels_unmasked toy_tokenizer 8 4 true false ""
           toy_examples ["hello"] ["bonjour"] [[3; 4; 0; 0]]).
  - vm_compute. reflexivity.
  - vm_compute. reflexivity.
  - vm_compute. reflexivity.
  - left. reflexivity.
Defined.

(** X7. What [preprocess] returns is the encoding of the prefixed source
    texts with one field changed: every field other than [labels] is as
    the tokenizer gave it for the sources, and a field [labels] the
    tokenizer may have given is replaced. *)
Theorem preprocess_keeps_source_fields tok max_src_length max_tgt_length
    pad_to_max_length ignore_pad_for_loss prefix
    (examples : gmap string (list string)) src out :
  examples !! "source" = Some src →
  preprocess tok max_src_length max_tgt_length pad_to_max_length
             ignore_pad_for_loss prefix examples = Ok out →
  (∀ field, field ≠ "labels" →
     out !! field
     = call tok false ((λ i, prefix +:+ i) <$> src)
            (padding_arg pad_to_max_length) max_src_length !! field)
  ∧ dom out
    = {["labels"]} ∪ dom (call tok false ((λ i, prefix +:+ i) <$> src)
                               (padding_arg pad_to_max_length)
                               max_src_length).
Proof.
  intros Hsrc Hrun.
  destruct (preprocess_returns _ _ _ _ _ _ _ _ Hrun)
    as (src' & tgt & ids & Hsrc' & Htgt & Hids).
  assert (src' = src) as -> by congruence.
  rewrite (preprocess_run _ _ _ _ _ _ _ _ _ _ Hsrc Htgt Hids) in Hrun.
  injection Hrun as <-. split.
  - intros field Hne. by rewrite lookup_insert_ne.
  - by rewrite dom_insert_L.
Qed.

Lemma preprocess_keeps_source_fields_example :
  (∀ field, field ≠ "labels" →
     <["labels" := [[3; 4; -100; -100]]]>
       (call toy_tokenizer false [""  +:+ "hello"] max_length 8) !! field
     = call toy_tokenizer false ((λ i, "" +:+ i) <$> ["hello"])
            (padding_arg true) 8 !! field)
  ∧ dom (<["labels" := [[3; 4; -100; -100]]]>
           (call toy_tokenizer false ["" +:+ "hello"] max_length 8))
    = {["labels"]} ∪ dom (call toy_tokenizer false
                               ((λ i, "" +:+ i) <$> ["hello"])
                               (padding_arg true) 8).
Proof.
  apply (preprocess_keeps_source_fields toy_tokenizer 8 4 true true ""
           toy_examples ["hello"]).
  - vm_compute. reflexivity.
  - vm_compute. reflexivity.
Defined.

(** X8. With both flags set and a pad id other than -100, no label
    holds the pad id any more: the loss never sees a padding token. *)
Theorem preprocess_labels_hold_no_pad_id tok max_src_length max_tgt_length
    prefix (examples : gmap string (list string)) src tgt ids p :
  examples !! "source" = Some src →
  examples !! "target" = Some tgt →
  call tok true tgt max_length max_tgt_length !! "input_ids" = Some ids →
  pad_token_id tok = Some p → p ≠ -100 →
  ∃ out labels,
    preprocess tok max_src_length max_tgt_length true true prefix examples
    = Ok out ∧
    out !! "labels" = Some labels ∧
    ∀ i j, token labels i j ≠ Some p.
Proof.
  intros Hsrc Htgt Hids Hp Hne.
  rewrite (preprocess_run _ _ _ true true _ _ _ _ _ Hsrc Htgt Hids).
  eexists _, _. split; [done|]. split; [apply lookup_insert_eq|].
  intros i j. cbn [andb]. rewrite token_fmap, Hp.
  destruct (token ids i j) as [t|]; [|done]. cbn. unfold sentinel.
  destruct (decide (Some t ≠ Some p)) as [Ht|Ht]; [done|].
  intros [= Hs]. by apply Hne.
Qed.

Lemma preprocess_labels_hold_no_pad_id_example :
  ∃ out labels,
    preprocess toy_tokenizer 8 4 true true "" toy_examples = Ok out ∧
    out !! "labels" = Some labels ∧
    ∀ i j, token labels i j ≠ Some 0.
Proof.
  apply (preprocess_labels_hold_no_pad_id toy_tokenizer 8 4 ""
           toy_examples ["hello"] ["bonjour"] [[3; 4; 0; 0]] 0).
  - vm_compute. reflexivity.
  - vm_compute. reflexivity.
  - vm_compute. reflexivity.
  - reflexivity.
  - discriminate.
Defined.

(** Reading a grid built from rows of one length. *)
Lemma wf_grid (ids : list (list Z)) c :
  ids ≠ [] → Forall (λ row, length row = c) ids →
  wf (grid ids) ∧ shape (grid ids) = (length ids, c).
Proof.
  intros Hne Hc. destruct ids as [|row ids]; [done|].
  pose proof (Forall_inv Hc) as Hrow. cbn in Hrow.
  unfold grid, wf, nrows, ncols. cbn. rewrite Hrow. done.
Qed.

(** X9. [right_shift] undoes the masking of [preprocess]. For targets
    tokenized into rows of one length, with non-negative token ids of
    the 64-bit range (so that the labels make a tensor), the labels that
    [preprocess] stores (pad positions at -100), given to [right_shift]
    with the tokenizer's pad id and a non-negative start id, both of
    that range, come back as the decoder input of teacher forcing: the
    start id, then the target tokens themselves, pad ids included,
    moved one place to the right. *)
Theorem right_shift_unmasks_labels tok max_src_length max_tgt_length
    prefix (examples : gmap string (list string)) src tgt ids p start c :
  examples !! "source" = Some src →
  examples !! "target" = Some tgt →
  call tok true tgt max_length max_tgt_length !! "input_ids" = Some ids →
  pad_token_id tok = Some p →
  ids ≠ [] → (0 < c)%nat → Forall (λ row, length row = c) ids →
  Forall (Forall (λ t, 0 ≤ t)) ids → Forall (Forall int64) ids →
  0 ≤ start → int64 start → int64 p →
  ∃ enc labels out,
    preprocess tok max_src_length max_tgt_length true true prefix examples
    = Ok enc ∧
    enc !! "labels" = Some labels ∧
    right_shift_of start (Some p) (grid labels) = Ok out ∧
    shape out = (length ids, c) ∧
    (∀ r, (r < length ids)%nat → at_ out r 0 = Some start) ∧
    (∀ r i, (1 ≤ i < c)%nat → at_ out r i = token ids r (i - 1)).
Proof.
  intros Hsrc Htgt Hids Hp Hne Hc Hrect Hpos _ Hstart Hs64 Hp64.
  rewrite (preprocess_run _ _ _ true true _ _ _ _ _ Hsrc Htgt Hids).
  cbn [andb]. rewrite Hp.
  set (mask := λ _label : Z, if decide (Some _label ≠ Some p)
                             then _label else sentinel).
  set (labels := (λ label : list Z, mask <$> label) <$> ids).
  assert (Hunmask : ∀ t, 0 ≤ t → fill p (mask t) = t).
  { intros t Ht. unfold fill, mask, sentinel.
    destruct (decide (Some t ≠ Some p)) as [Hn|Hn].
    - rewrite decide_False by lia. done.
    - rewrite decide_True by done.
      destruct (decide (t = p)) as [|Htp]; [done|].
      exfalso. apply Hn. congruence. }
  assert (Htok : ∀ r j v, token ids r j = Some v → 0 ≤ v).
  { intros r j v. unfold token.
    destruct (ids !! r) as [row|] eqn:Hrow; [|done]. cbn. intros Hv.
    eapply (Forall_lookup_1 _ row); [|exact Hv].
    eapply (Forall_lookup_1 _ ids); eauto. }
  assert (Hat : ∀ r j, at_ (grid labels) r j = mask <$> token ids r j).
  { intros r j. apply token_fmap. }
  destruct (wf_grid labels c) as [Hwf Hsh].
  { subst labels. by destruct ids. }
  { subst labels. apply Forall_fmap. eapply Forall_impl; [exact Hrect|].
    intros row Hrow. cbn. by rewrite length_fmap. }
  assert (Hcols : ncols (grid labels) = c) by (unfold ncols; by rewrite Hsh).
  assert (Hrows : nrows (grid labels) = length ids).
  { unfold nrows. rewrite Hsh. cbn. subst labels. by rewrite length_fmap. }
  exists (<["labels" := labels]>
            (call tok false ((λ i, prefix +:+ i) <$> src) max_length
                  max_src_length)), labels,
         (after_fill start p (grid labels)).
  split; [done|]. split; [apply lookup_insert_eq|].
  assert (Hfs : fill p start = start).
  { unfold fill. rewrite decide_False by lia. done. }
  split.
  { rewrite right_shift_of_run.
    rewrite (decide_True (P:=int64 start)) by done.
    rewrite decide_False by lia.
    rewrite (decide_True (P:=int64 p)) by done.
    rewrite (proj2 (all_nonneg _)); [done|].
    apply after_fill_nonneg; [done|lia|]. split; [lia|].
    intros r j v _. rewrite Hat.
    destruct (token ids r j) as [t|] eqn:Ht; [|done].
    intros [= <-]. rewrite Hunmask; eauto. }
  split; [by rewrite <- Hrows, <- Hcols|]. split.
  - intros r Hr. rewrite at_after_fill_0, Hfs; (done || lia).
  - intros r i Hi. rewrite at_after_fill_S, Hat by (done || lia).
    destruct (token ids r (i - 1)) as [t|] eqn:Ht; [|done]. cbn.
    f_equal. eauto.
Qed.

Lemma right_shift_unmasks_labels_example :
  ∃ enc labels out,
    preprocess toy_tokenizer 8 4 true true "" toy_examples = Ok enc ∧
    enc !! "labels" = Some labels ∧
    right_shift_of 1 (Some 0) (grid labels) = Ok out ∧
    shape out = (length [[3; 4; 0; 0]], 4%nat) ∧
    (∀ r, (r < length [[3; 4; 0; 0]])%nat → at_ out r 0 = Some 1) ∧
    (∀ r i, (1 ≤ i < 4)%nat →
            at_ out r i = token [[3; 4; 0; 0]] r (i - 1)).
Proof.
  apply (right_shift_unmasks_labels toy_tokenizer 8 4 "" toy_examples
           ["hello"] ["bonjour"] [[3; 4; 0; 0]] 0 1 4%nat).
  - vm_compute. reflexivity.
  - vm_compute. reflexivity.
  - vm_compute. reflexivity.
  - reflexivity.
  - discriminate.
  - lia.
  - repeat constructor.
  - repeat constructor; lia.
  - repeat constructor; unfold int64; lia.
  - lia.
  - unfold int64. lia.
  - unfold int64. lia.
Defined.

(** X10. A file that is not a [.json] file, or that does not exist,
    makes [load_seq2seq_data] raise the [ValueError] of line 97,
    whatever the dataset library would do: the check comes first. *)
Theorem load_seq2seq_data_rejects {Model Dataset} (fname : PosixPath)
    (tok : tokenizer) (max_src_length max_tgt_length : Z)
    (pad_to_max_length : bool) (max_samples : Z)
    (ignore_pad_for_loss : bool) (split prefix : string)
    (load_dataset : PosixPath → string → res Dataset)
    (len : Dataset → res Z) (select_range : Z → Dataset → res Dataset)
    (map_batched : (gmap string (list string) → res encoding) →
                   Dataset → res Dataset)
    (globals : gmap string Model) (disk : gmap PosixPath string) :
  suffix fname ≠ ".json" ∨ disk !! fname = None →
  load_seq2seq_data (Dataset:=Dataset) fname tok max_src_length
    max_tgt_length pad_to_max_length max_samples ignore_pad_for_loss
    split prefix load_dataset len select_range map_batched globals disk
  = Raise (ValueError (unknown_json_file fname)).
Proof.
  intros H. unfold load_seq2seq_data, exists_. destruct H as [H|H].
  - rewrite bool_decide_false; [done|]. by rewrite list_elem_of_singleton.
  - rewrite (bool_decide_false (is_Some _)), orb_true_r; [done|].
    rewrite H. by intros [? ?].
Qed.

Lemma load_seq2seq_data_rejects_example :
  load_seq2seq_data (Model:=unit) ["data"; "train.txt"]
    toy_tokenizer 8 4 true (-1) true "train" "" toy_load_dataset toy_len
    toy_select_range toy_map_batched ∅ {[ ["data"; "train.txt"] := "{}" ]}
  = Raise (ValueError (unknown_json_file ["data"; "train.txt"])).
Proof.
  apply load_seq2seq_data_rejects. left. vm_compute. discriminate.
Defined.

(** X11. As the module is written, with no name [model] bound in it,
    [load_seq2seq_data] never returns a dataset when [pad_to_max_length]
    is off, whatever the file and whatever the dataset library does. *)
Theorem load_seq2seq_data_variable_length_raises {Model Dataset}
    (fname : PosixPath) (tok : tokenizer)
    (max_src_length max_tgt_length max_samples : Z)
    (ignore_pad_for_loss : bool) (split prefix : string)
    (load_dataset : PosixPath → string → res Dataset)
    (len : Dataset → res Z) (select_range : Z → Dataset → res Dataset)
    (map_batched : (gmap string (list string) → res encoding) →
                   Dataset → res Dataset)
    (globals : gmap string Model) (disk : gmap PosixPath string) :
  globals !! "model" = None →
  ∃ e,
    load_seq2seq_data fname tok max_src_length max_tgt_length false
      max_samples ignore_pad_for_loss split prefix load_dataset len
      select_range map_batched globals disk = Raise e.
Proof.
  intros Hm. unfold load_seq2seq_data, select_collator, global_name.
  rewrite Hm. destruct (_ || _); [by eexists|].
  destruct (load_dataset fname split) as [d0|e0]; [|by eexists].
  cbn [mbind res_bind mret res_ret].
  destruct (bool_decide (0 < max_samples)).
  - destruct (len d0) as [n|e1]; [|by eexists]. cbn [mbind res_bind].
    destruct (select_range _ d0) as [d1|e2]; [|by eexists].
    cbn [mbind res_bind].
    match goal with |- context [map_batched ?f ?d] =>
      destruct (map_batched f d) as [d2|e3] end; by eexists.
  - cbn [mbind res_bind mret res_ret].
    match goal with |- context [map_batched ?f ?d] =>
      destruct (map_batched f d) as [d2|e3] end; by eexists.
Qed.

Lemma load_seq2seq_data_variable_length_raises_example :
  ∃ e,
    load_seq2seq_data (Model:=unit) train_json toy_tokenizer 8 4 false
      (-1) true "train" "" toy_load_dataset toy_len toy_select_range
      toy_map_batched ∅ disk_with_train_json = Raise e.
Proof.
  apply (load_seq2seq_data_variable_length_raises (Model:=unit)).
  reflexivity.
Defined.

End Seq2SeqMore.

(** ** Lines and stripping *)

Module LineFacts.
Import Files LineByLine.

Lemma chars_rev_app s1 s2 :
  list_ascii_of_string (String.rev_app s1 s2)
  = rev_append (list_ascii_of_string s1) (list_ascii_of_string s2).
Proof. revert s2. induction s1 as [|a s1 IH]; intros s2; cbn; [done|]. by rewrite IH. Qed.

Lemma chars_rev s :
  list_ascii_of_string (String.rev s) = reverse (list_ascii_of_string s).
Proof. unfold String.rev. by rewrite chars_rev_app. Qed.

Lemma chars_inj s1 s2 :
  list_ascii_of_string s1 = list_ascii_of_string s2 → s1 = s2.
Proof.
  intros H. rewrite <- (string_of_list_ascii_of_string s1),
    <- (string_of_list_ascii_of_string s2). by rewrite H.
Qed.

Lemma chars_app s1 s2 :
  list_ascii_of_string (s1 +:+ s2)
  = list_ascii_of_string s1 ++ list_ascii_of_string s2.
Proof.
  induction s1 as [|a s1 IH]; [done|].
  change (a :: list_ascii_of_string (s1 +:+ s2)
          = a :: (list_ascii_of_string s1 ++ list_ascii_of_string s2)).
  by rewrite IH.
Qed.

(** [lstrip] drops a run of whitespace and stops at the first character
    that is not whitespace. *)
Lemma lstrip_spec s :
  ∃ pre, list_ascii_of_string s = pre ++ list_ascii_of_string (lstrip s) ∧
         Forall (λ c, isspace c = true) pre ∧
         ∀ c, head (list_ascii_of_string (lstrip s)) = Some c → isspace c = false.
Proof.
  induction s as [|a s (pre & Heq & Hpre & Hhd)]; cbn.
  - exists []. by repeat split.
  - destruct (isspace a) eqn:Ha.
    + exists (a :: pre). cbn. rewrite Heq. repeat split; auto.
    + exists []. cbn. repeat split; auto. intros c [= <-]. done.
Qed.

(** [strip] cuts whitespace off both ends, and nothing else. *)
Lemma strip_spec s :
  ∃ pre post,
    list_ascii_of_string s = pre ++ list_ascii_of_string (strip s) ++ post ∧
    Forall (λ c, isspace c = true) pre ∧
    Forall (λ c, isspace c = true) post ∧
    (∀ c, head (list_ascii_of_string (strip s)) = Some c → isspace c = false) ∧
    (∀ c, last (list_ascii_of_string (strip s)) = Some c → isspace c = false).
Proof.
  unfold strip.
  destruct (lstrip_spec s) as (pre & Heq & Hpre & Hhd).
  destruct (lstrip_spec (String.rev (lstrip s))) as (post' & Heq' & Hpost & Hhd').
  rewrite chars_rev in Heq'.
  set (u := lstrip (String.rev (lstrip s))) in *.
  assert (Ht : list_ascii_of_string (lstrip s) = reverse (list_ascii_of_string u) ++ reverse post').
  { rewrite <- reverse_app, <- Heq'. by rewrite reverse_involutive. }
  exists pre, (reverse post'). rewrite chars_rev.
  split; [by rewrite Heq, Ht|]. split; [done|].
  split; [by apply Forall_reverse|]. split.
  - intros c Hc. apply Hhd. rewrite Ht.
    destruct (reverse (list_ascii_of_string u)); [done|]. done.
  - intros c Hc. apply Hhd'. rewrite last_reverse in Hc. done.
Qed.

Lemma strip_empty_iff s :
  strip s = "" ↔ Forall (λ c, isspace c = true) (list_ascii_of_string s).
Proof.
  destruct (strip_spec s) as (pre & post & Heq & Hpre & Hpost & Hhd & _).
  split.
  - intros He. rewrite He in Heq. cbn in Heq. rewrite Heq.
    by apply Forall_app.
  - intros Hall. apply chars_inj. cbn.
    destruct (list_ascii_of_string (strip s)) as [|c l] eqn:Hc; [done|].
    rewrite Heq in Hall. apply Forall_app in Hall as [_ Hall].
    apply Forall_app in Hall as [Hall _].
    apply Forall_cons in Hall as [Hsp _].
    specialize (Hhd c eq_refl). congruence.
Qed.

(** The line feed is whitespace. *)
Lemma isspace_LF : isspace LF = true.
Proof. reflexivity. Qed.

Lemma chars_cons a s :
  list_ascii_of_string (String a s) = a :: list_ascii_of_string s.
Proof. reflexivity. Qed.

(** Reading with universal newlines brings in no character other than
    the line feed. *)
Lemma universal_newlines_elem n s c :
  (String.length s ≤ n)%nat →
  c ∈ list_ascii_of_string (universal_newlines s) →
  c = LF ∨ c ∈ list_ascii_of_string s.
Proof.
  revert s. induction n as [|n IH]; intros s Hn.
  - destruct s; [|cbn in Hn; lia]. cbn. intros H. by apply elem_of_nil in H.
  - destruct s as [|a s]; cbn [universal_newlines].
    { intros H. by apply elem_of_nil in H. }
    cbn in Hn. destruct (decide (a = CR)) as [->|Ha].
    + rewrite !chars_cons. intros H. apply elem_of_cons in H as [->|H];
        [by left|].
      destruct s as [|b s'].
      { cbn in H. by apply elem_of_nil in H. }
      cbn in Hn. destruct (decide (b = LF)).
      * apply IH in H as [->|H]; [by left| |lia].
        right. rewrite chars_cons, !elem_of_cons. auto.
      * apply IH in H as [->|H]; [by left| |cbn; lia].
        right. rewrite elem_of_cons. auto.
    + rewrite !chars_cons. intros H. apply elem_of_cons in H as [->|H].
      * right. apply elem_of_cons. auto.
      * apply IH in H as [->|H]; [by left| |lia].
        right. apply elem_of_cons. auto.
Qed.

(** Lines of [readlines]: not empty, and a line feed only at the end. *)

Lemma readlines_go_spec cur s line :
  LF ∉ list_ascii_of_string cur →
  line ∈ readlines_go cur s →
  ∃ body, (LF ∉ body) ∧
          (list_ascii_of_string line = body ++ [LF] ∨
           (list_ascii_of_string line = body ∧ body ≠ [])).
Proof.
  revert cur. induction s as [|c s IH]; intros cur Hcur; cbn [readlines_go].
  - destruct (decide (cur = "")) as [->|Hne].
    + intros H. by apply elem_of_nil in H.
    + intros H. apply list_elem_of_singleton in H as ->.
      exists (reverse (list_ascii_of_string cur)).
      rewrite chars_rev. split; [by rewrite elem_of_reverse|]. right.
      split; [done|]. destruct cur as [|a cur]; [done|].
      rewrite chars_cons, reverse_cons. intros H.
      by apply app_nil in H as [_ ?].
  - fold LF. destruct (decide (c = LF)) as [->|Hc].
    + intros H. apply elem_of_cons in H as [->|Hin].
      * exists (reverse (list_ascii_of_string cur)).
        rewrite chars_rev, chars_cons, reverse_cons.
        split; [by rewrite elem_of_reverse|]. by left.
      * apply (IH ""); [|done]. intros H. by apply elem_of_nil in H.
    + intros Hin. apply (IH (String c cur)); [|done].
      rewrite chars_cons. intros H.
      apply elem_of_cons in H as [?|?]; congruence.
Qed.

Lemma readlines_spec s line :
  line ∈ readlines s →
  ∃ body, (LF ∉ body) ∧
          (list_ascii_of_string line = body ++ [LF] ∨
           (list_ascii_of_string line = body ∧ body ≠ [])).
Proof. apply readlines_go_spec. intros H. by apply elem_of_nil in H. Qed.

(** A stripped line holds no line feed. *)
Lemma strip_line_no_newline s line :
  line ∈ readlines s → LF ∉ list_ascii_of_string (strip line).
Proof.
  intros Hin. destruct (readlines_spec _ _ Hin) as (body & Hbody & Hline).
  destruct (strip_spec line) as (pre & post & Heq & _ & _ & _ & Hlast).
  assert (Hsub : ∀ l l1 l2, l = l1 ++ list_ascii_of_string (strip line) ++ l2 →
                            LF ∉ l → LF ∉ list_ascii_of_string (strip line)).
  { intros l l1 l2 -> Hl Hc. apply Hl. rewrite !elem_of_app. auto. }
  destruct Hline as [Hline|[Hline _]].
  - rewrite Hline in Heq.
    destruct post as [|x post _] using rev_ind.
    + rewrite app_nil_r in Heq.
      destruct (list_ascii_of_string (strip line)) as [|c l _] eqn:Hc using rev_ind.
      * intros H. by apply elem_of_nil in H.
      * rewrite app_assoc in Heq. apply app_inj_tail in Heq as [_ <-].
        specialize (Hlast LF). rewrite last_snoc in Hlast.
        specialize (Hlast eq_refl). by rewrite isspace_LF in Hlast.
    + rewrite !app_assoc in Heq. apply app_inj_tail in Heq as [Heq _].
      rewrite <- app_assoc in Heq. by eapply Hsub.
  - rewrite Hline in Heq. by eapply Hsub.
Qed.

End LineFacts.

(** ** [extend_vocabulary] and [read_lines]: what the tokens and the
       lines look like *)

Module VocabularyMore.
Import Files Vocabulary LineByLine PyFacts VocabularyFacts LineFacts.

(** X13. Every token that [extend_vocabulary] hands to [add_tokens] is
    stripped: it holds no line feed, and neither its first nor its last
    character is whitespace. *)
Theorem extend_vocabulary_tokens_stripped (disk : gmap PosixPath string)
    (fname : PosixPath) (t t' : tokenizer) :
  extend_vocabulary disk fname t = (Ok tt, t') →
  ∃ vocab,
    add_tokens_calls t' = add_tokens_calls t ++ [vocab] ∧
    ∀ token, token ∈ vocab →
      (LF ∉ list_ascii_of_string token) ∧
      (∀ c, head (list_ascii_of_string token) = Some c →
            isspace c = false) ∧
      (∀ c, last (list_ascii_of_string token) = Some c →
            isspace c = false).
Proof.
  intros Hrun.
  destruct (disk !! fname) as [text|] eqn:Hf.
  2: { rewrite extend_vocabulary_rejects in Hrun by (by right). done. }
  destruct (decide (suffix fname = ".txt")) as [Hs|Hs].
  2: { rewrite extend_vocabulary_rejects in Hrun by (by left). done. }
  rewrite (extend_vocabulary_adds _ _ _ _ Hs Hf) in Hrun.
  injection Hrun as <-.
  exists (strip <$> readlines (universal_newlines text)).
  split; [done|]. intros token Hin.
  apply list_elem_of_fmap in Hin as (line & -> & Hline).
  split; [by eapply strip_line_no_newline|].
  destruct (strip_spec line) as (_ & _ & _ & _ & _ & Hhd & Hlast). done.
Qed.

Lemma extend_vocabulary_tokens_stripped_example :
  ∃ vocab,
    add_tokens_calls (mk_tokenizer [["a"; ""; "b"]])
    = add_tokens_calls (mk_tokenizer []) ++ [vocab] ∧
    ∀ token, token ∈ vocab →
      (LF ∉ list_ascii_of_string token) ∧
      (∀ c, head (list_ascii_of_string token) = Some c →
            isspace c = false) ∧
      (∀ c, last (list_ascii_of_string token) = Some c →
            isspace c = false).
Proof.
  apply (extend_vocabulary_tokens_stripped disk_with_blank_line vocab_txt
           (mk_tokenizer []) (mk_tokenizer [["a"; ""; "b"]])).
  vm_compute. reflexivity.
Defined.



(** Pieces of [split('\n')] hold no line feed. *)
Lemma split_newline_go_no_LF s cur line :
  LF ∉ list_ascii_of_string cur →
  line ∈ (fix go (cur : string) (s : string) : list string :=
            match s with
            | EmptyString => [String.rev cur]
            | String c s' =>
                if decide (c = "010"%char) then String.rev cur :: go "" s'
                else go (String c cur) s'
            end) cur s →
  LF ∉ list_ascii_of_string line.
Proof.
  revert cur. induction s as [|c s IH]; intros cur Hcur.
  - intros H. apply list_elem_of_singleton in H as ->.
    by rewrite chars_rev, elem_of_reverse.
  - fold LF. destruct (decide (c = LF)) as [->|Hc].
    + intros H. apply elem_of_cons in H as [->|Hin].
      * by rewrite chars_rev, elem_of_reverse.
      * apply (IH ""); [|done]. intros H. by apply elem_of_nil in H.
    + apply IH. rewrite chars_cons. intros H.
      apply elem_of_cons in H as [?|?]; congruence.
Qed.

Lemma split_newline_no_LF s line :
  line ∈ split_newline s → LF ∉ list_ascii_of_string line.
Proof.
  apply split_newline_go_no_LF. intros H. by apply elem_of_nil in H.
Qed.

(** X15. [read_lines] raises [FileNotFoundError] on a missing file; on
    a file that exists it returns lines none of which is empty, made of
    whitespace only, or holds a line feed; and a file of whitespace only
    (the empty file included) gives no line at all. *)
Theorem read_lines_outcome (disk : gmap PosixPath string)
    (filename : PosixPath) :
  match disk !! filename with
  | None => read_lines disk filename = Raise FileNotFoundError
  | Some text =>
      ∃ lines,
        read_lines disk filename = Ok lines ∧
        (∀ line, line ∈ lines →
           line ≠ "" ∧ str_isspace line = false ∧
           (LF ∉ list_ascii_of_string line)) ∧
        (forallb isspace (list_ascii_of_string text) = true → lines = [])
  end.
Proof.
  unfold read_lines, open_. destruct (disk !! filename) as [text|]; [|done].
  cbn [mbind res_bind mret res_ret].
  eexists. split; [done|]. split.
  - intros line Hin. apply list_elem_of_filter in Hin as [[Hlen Hsp] Hin].
    split; [|split; [done|by eapply split_newline_no_LF]].
    intros ->. cbn in Hlen. lia.
  - intros Hall.
    assert (Hs : strip (universal_newlines text) = "").
    { apply strip_empty_iff, Forall_forall. intros c Hc.
      apply (universal_newlines_elem _ _ _ (Nat.le_refl _)) in Hc
        as [->|Hc]; [reflexivity|].
      rewrite forallb_forall in Hall. by apply Hall, list_elem_of_In. }
    by rewrite Hs.
Qed.

End VocabularyMore.

(** ** [vocabulary_indices]: the index of a word *)

Module IndicesFacts.
Import Indices.

(** Entry by entry, the dict of an enumeration: a key stands at the
    index it holds, and nowhere later. *)
Lemma enumerate_dict_lookup (l : list string) w i :
  foldl (λ d '(i, word), <[word := i]> d) (∅ : gmap string nat)
        (enumerate l) !! w = Some i
  ↔ l !! i = Some w ∧ ∀ j, (i < j)%nat → l !! j ≠ Some w.
Proof.
  unfold enumerate. revert i.
  induction l as [|x l IH] using rev_ind; intros i.
  - cbn. rewrite lookup_empty. split; [done|]. by intros [? _].
  - rewrite imap_app, foldl_app. cbn [imap foldl].
    rewrite Nat.add_0_r.
    destruct (decide (x = w)) as [->|Hne].
    + rewrite lookup_insert_eq. split.
      * intros [= <-]. split; [apply list_lookup_middle; done|].
        intros j Hj. rewrite lookup_ge_None_2; [done|].
        rewrite length_app. cbn. lia.
      * intros [Hi Hlast]. f_equal.
        apply lookup_snoc_Some in Hi as [[Hlt _]|[-> _]]; [|done].
        exfalso. apply (Hlast (length l) Hlt).
        by apply list_lookup_middle.
    + rewrite lookup_insert_ne by done. rewrite IH. split.
      * intros [Hi Hlast]. split.
        { apply lookup_snoc_Some. left. split; [|done].
          by eapply lookup_lt_Some. }
        intros j Hj Hw. apply lookup_snoc_Some in Hw as [[_ Hw]|[_ Hw]].
        { by apply (Hlast j). }
        done.
      * intros [Hi Hlast].
        apply lookup_snoc_Some in Hi as [[Hlt Hi]|[_ Hx]]; [|done].
        split; [done|]. intros j Hj Hw. apply (Hlast j Hj).
        apply lookup_snoc_Some. left. split; [|done].
        by eapply lookup_lt_Some.
Qed.

(** A member of a list has a last place in it. *)
Lemma last_occurrence (l : list string) w :
  w ∈ l → ∃ i, l !! i = Some w ∧ ∀ j, (i < j)%nat → l !! j ≠ Some w.
Proof.
  induction l as [|x l IH] using rev_ind.
  - intros H. by apply elem_of_nil in H.
  - intros Hin. destruct (decide (x = w)) as [->|Hne].
    + exists (length l). split; [by apply list_lookup_middle|].
      intros j Hj. rewrite lookup_ge_None_2; [done|].
      rewrite length_app. cbn. lia.
    + apply elem_of_app in Hin as [Hin|Hin].
      2: { apply list_elem_of_singleton in Hin. congruence. }
      destruct (IH Hin) as (i & Hi & Hlast). exists i. split.
      * apply lookup_snoc_Some. left. split; [|done].
        by eapply lookup_lt_Some.
      * intros j Hj Hw. apply lookup_snoc_Some in Hw as [[_ Hw]|[_ Hw]].
        { by apply (Hlast j). }
        done.
Qed.

Lemma StronglySorted_lookup_le {A} (R : relation A) (l : list A) i j a b :
  StronglySorted R l → (i < j)%nat →
  l !! i = Some a → l !! j = Some b → R a b.
Proof.
  intros Hs. revert i j. induction Hs as [|x l Hs IH Hx]; intros i j Hij.
  - done.
  - destruct i as [|i], j as [|j]; try lia; cbn.
    + intros [= <-] Hb. eapply Forall_lookup_1 in Hx; eauto.
    + apply IH. lia.
Qed.

Lemma sorted_Permutation v : sorted v ≡ₚ v.
Proof. apply merge_sort_Permutation. Qed.

Lemma sorted_StronglySorted v : StronglySorted String.le (sorted v).
Proof. apply StronglySorted_merge_sort; apply _. Qed.

End IndicesFacts.

Module IndicesMore.
Import Indices IndicesFacts.

(** X16. [vocabulary_indices] gives each word the place of its last
    copy in the sorted vocabulary: the sorted list holds the same words,
    in non-decreasing order, and a word has index [i] exactly when it
    stands at place [i] there and at no later place. A word that occurs
    several times thus takes one index and leaves the others unused. *)
Theorem vocabulary_indices_lookup (vocabulary : list string) :
  sorted vocabulary ≡ₚ vocabulary ∧
  StronglySorted String.le (sorted vocabulary) ∧
  ∀ word i,
    vocabulary_indices vocabulary !! word = Some i
    ↔ sorted vocabulary !! i = Some word ∧
      ∀ j, (i < j)%nat → sorted vocabulary !! j ≠ Some word.
Proof.
  split; [apply sorted_Permutation|].
  split; [apply sorted_StronglySorted|].
  intros word i. apply enumerate_dict_lookup.
Qed.

(** X17. The keys of the result are the words of the vocabulary, and
    every index is below the number of words given. *)
Theorem vocabulary_indices_keys (vocabulary : list string) word :
  (word ∈ vocabulary ↔ is_Some (vocabulary_indices vocabulary !! word)) ∧
  ∀ i, vocabulary_indices vocabulary !! word = Some i →
       (i < length vocabulary)%nat.
Proof.
  split; [split|].
  - intros Hin. rewrite <- (sorted_Permutation vocabulary) in Hin.
    destruct (last_occurrence _ _ Hin) as (i & Hi). exists i.
    by apply enumerate_dict_lookup.
  - intros [i Hi]. apply enumerate_dict_lookup in Hi as [Hi _].
    rewrite <- (sorted_Permutation vocabulary).
    by eapply list_elem_of_lookup_2.
  - intros i Hi. apply enumerate_dict_lookup in Hi as [Hi _].
    apply lookup_lt_Some in Hi.
    by rewrite (Permutation_length (sorted_Permutation vocabulary)) in Hi.
Qed.

(** X18. Indices follow the order of the words: of two words of the
    vocabulary, the one with the smaller index is the one that comes
    first in the order of strings; two different words never share an
    index. *)
Theorem vocabulary_indices_monotone (vocabulary : list string)
    word1 word2 i1 i2 :
  vocabulary_indices vocabulary !! word1 = Some i1 →
  vocabulary_indices vocabulary !! word2 = Some i2 →
  ((i1 < i2)%nat ↔ String.le word1 word2 ∧ word1 ≠ word2) ∧
  (i1 = i2 ↔ word1 = word2).
Proof.
  intros H1 H2.
  apply enumerate_dict_lookup in H1 as [H1 L1].
  apply enumerate_dict_lookup in H2 as [H2 L2].
  pose proof (sorted_StronglySorted vocabulary) as Hs.
  assert (Heq : i1 = i2 ↔ word1 = word2).
  { split; [intros ->; congruence|]. intros ->.
    destruct (Nat.lt_trichotomy i1 i2) as [Hlt|[?|Hlt]]; [|done|].
    - by destruct (L1 i2 Hlt).
    - by destruct (L2 i1 Hlt). }
  split; [|done]. split.
  - intros Hlt. split.
    + eapply StronglySorted_lookup_le; eauto.
    + intros ->. by destruct (L1 i2 Hlt).
  - intros [Hle Hne].
    destruct (Nat.lt_trichotomy i1 i2) as [Hlt|[Hi|Hlt]]; [done| |].
    + by apply Heq in Hi.
    + exfalso. apply Hne.
      apply (anti_symm String.le); [done|].
      eapply StronglySorted_lookup_le; eauto.
Qed.

Lemma vocabulary_indices_monotone_example :
  ((0 < 2)%nat ↔ String.le "apple" "pear" ∧ "apple" ≠ "pear") ∧
  (0%nat = 2%nat ↔ "apple" = "pear").
Proof.
  apply (vocabulary_indices_monotone ["pear"; "apple"; "fig"]
           "apple" "pear" 0 2).
  - vm_compute. reflexivity.
  - vm_compute. reflexivity.
Defined.

(** X19. For a vocabulary without repeated words the result is the
    inverse of the sorted list: a word has index [i] exactly when it is
    the [i]-th word in sorted order, every index below the number of
    words is taken, and there are as many entries as words. *)
Theorem vocabulary_indices_NoDup (vocabulary : list string) :
  NoDup vocabulary →
  (∀ word i, vocabulary_indices vocabulary !! word = Some i
             ↔ sorted vocabulary !! i = Some word) ∧
  (∀ i, (i < length vocabulary)%nat →
        ∃ word, vocabulary_indices vocabulary !! word = Some i) ∧
  size (vocabulary_indices vocabulary) = length vocabulary.
Proof.
  intros Hnd.
  assert (Hnd' : NoDup (sorted vocabulary)).
  { by rewrite (sorted_Permutation vocabulary). }
  assert (Hiff : ∀ word i, vocabulary_indices vocabulary !! word = Some i
                           ↔ sorted vocabulary !! i = Some word).
  { intros word i. unfold vocabulary_indices.
    rewrite enumerate_dict_lookup. split; [by intros [? _]|].
    intros Hi. split; [done|]. intros j Hj Hw.
    pose proof (NoDup_lookup _ _ _ _ Hnd' Hi Hw). lia. }
  split; [done|]. split.
  - intros i Hi.
    rewrite <- (Permutation_length (sorted_Permutation vocabulary)) in Hi.
    apply lookup_lt_is_Some_2 in Hi as [word Hw]. exists word.
    by apply Hiff.
  - rewrite <- (Permutation_length (sorted_Permutation vocabulary)).
    assert (Hdom : dom (vocabulary_indices vocabulary)
                   = list_to_set (sorted vocabulary)).
    { apply set_eq. intros w. rewrite elem_of_dom, elem_of_list_to_set.
      split.
      - intros [i Hi]. apply Hiff in Hi. by eapply list_elem_of_lookup_2.
      - intros Hin. apply list_elem_of_lookup in Hin as [i Hi].
        exists i. by apply Hiff. }
    rewrite <- size_dom, Hdom. by apply size_list_to_set.
Qed.

Lemma vocabulary_indices_NoDup_example :
  (∀ word i, vocabulary_indices ["pear"; "apple"; "fig"] !! word = Some i
             ↔ sorted ["pear"; "apple"; "fig"] !! i = Some word) ∧
  (∀ i, (i < length ["pear"; "apple"; "fig"])%nat →
        ∃ word, vocabulary_indices ["pear"; "apple"; "fig"] !! word
                = Some i) ∧
  size (vocabulary_indices ["pear"; "apple"; "fig"])
  = length ["pear"; "apple"; "fig"].
Proof.
  apply (vocabulary_indices_NoDup ["pear"; "apple"; "fig"]).
  repeat constructor; rewrite ?elem_of_cons, ?elem_of_nil; intuition congruence.
Defined.

End IndicesMore.

(** ** [LineByLineTextDataset]: the lines it keeps, and indexing *)

Module LineByLineMore.
Import Files Vocabulary Seq2Seq LineByLine LineFacts Seq2SeqFacts Seq2SeqMore.

(** Lines of [splitlines] hold none of the characters it cuts at. *)
Lemma splitlines_go_no_break n s cur line :
  (String.length s ≤ n)%nat →
  Forall (λ c, is_linebreak c = false) (list_ascii_of_string cur) →
  line ∈ splitlines_go cur s →
  Forall (λ c, is_linebreak c = false) (list_ascii_of_string line).
Proof.
  revert s cur. induction n as [|n IH]; intros s cur Hn Hcur.
  - destruct s; [|cbn in Hn; lia]. cbn.
    destruct (decide (cur = "")); intros H.
    + by apply elem_of_nil in H.
    + apply list_elem_of_singleton in H as ->.
      rewrite chars_rev. by apply Forall_reverse.
  - destruct s as [|c s]; cbn [splitlines_go].
    + destruct (decide (cur = "")); intros H.
      * by apply elem_of_nil in H.
      * apply list_elem_of_singleton in H as ->.
        rewrite chars_rev. by apply Forall_reverse.
    + cbn in Hn. destruct (is_linebreak c) eqn:Hc.
      * intros H. apply elem_of_cons in H as [->|Hin].
        { rewrite chars_rev. by apply Forall_reverse. }
        destruct s as [|c' s'].
        { by apply elem_of_nil in Hin. }
        cbn in Hn.
        destruct (decide (c = CR ∧ c' = LF)).
        -- eapply (IH s' ""); [lia|constructor|done].
        -- eapply (IH (String c' s') ""); [cbn; lia|constructor|done].
      * apply IH; [lia|]. rewrite chars_cons. by constructor.
Qed.

(** X20. [LineByLineTextDataset(tokenizer, file_path)] raises
    [FileNotFoundError] on a missing file. Otherwise the tokenizer is
    given lines none of which is empty, made of whitespace only, or
    holds a line-end character, and the dataset is built from the fields
    [input_ids] and [attention_mask] of its answer, a missing field
    raising [KeyError]. *)
Theorem dataset_init_outcome (batch_encode_plus : list string → Z → encoding)
    (disk : gmap PosixPath string) (file_path : PosixPath)
    (max_length : Z) :
  match disk !! file_path with
  | None =>
      __init__ batch_encode_plus disk file_path max_length
      = Raise FileNotFoundError
  | Some text =>
      ∃ lines,
        (∀ line, line ∈ lines →
           line ≠ "" ∧ str_isspace line = false ∧
           Forall (λ c, is_linebreak c = false)
                  (list_ascii_of_string line)) ∧
        __init__ batch_encode_plus disk file_path max_length
        = match batch_encode_plus lines max_length !! "input_ids",
                batch_encode_plus lines max_length !! "attention_mask" with
          | Some examples, Some masks => Ok (mk_dataset examples masks)
          | None, _ => Raise (KeyError "input_ids")
          | Some _, None => Raise (KeyError "attention_mask")
          end
  end.
Proof.
  unfold __init__, open_. destruct (disk !! file_path) as [text|]; [|done].
  cbn [mbind res_bind].
  exists (kept_lines (universal_newlines text)). split.
  - intros line Hin. apply list_elem_of_filter in Hin as [[Hlen Hsp] Hin].
    split; [intros ->; cbn in Hlen; lia|]. split; [done|].
    eapply (splitlines_go_no_break _ (universal_newlines text) "");
      [done|constructor|done].
  - cbv zeta.
    destruct (_ !! "input_ids") as [e|] eqn:He.
    + rewrite (getitem_Some _ _ _ He). cbn [mbind res_bind].
      destruct (_ !! "attention_mask") as [m|] eqn:Hm.
      * by rewrite (getitem_Some _ _ _ Hm).
      * by rewrite (getitem_None _ _ Hm).
    + by rewrite (getitem_None _ _ He).
Qed.

(** Python list indexing at an index that is not negative. *)
Lemma list_getitem_nonneg {A} (l : list A) (i : Z) :
  0 ≤ i →
  list_getitem l i = match l !! Z.to_nat i with
                     | Some x => Ok x
                     | None => Raise (IndexError "list index out of range")
                     end.
Proof.
  intros Hi. unfold list_getitem. cbv zeta.
  rewrite (bool_decide_false (i < 0)) by lia.
  case_bool_decide as Hr; [done|].
  rewrite (proj2 (lookup_ge_None l (Z.to_nat i))); [done|lia].
Qed.

Lemma LongTensor_Ok (row out : list Z) :
  LongTensor row = Ok out ↔ out = row ∧ Forall Tensor.int64 row.
Proof.
  unfold LongTensor. destruct (decide (Forall Tensor.int64 row)).
  - split; [by intros [= <-]|by intros [-> _]].
  - split; [done|by intros [_ ?]].
Qed.

(** What an index that is not negative is answered with. *)
Lemma getitem_nonneg (self : LineByLineTextDataset) (i : Z) item :
  0 ≤ i →
  __getitem__ self i = Ok item ↔
  examples self !! Z.to_nat i = Some item.1 ∧
  masks self !! Z.to_nat i = Some item.2 ∧
  Forall Tensor.int64 item.1 ∧ Forall Tensor.int64 item.2.
Proof.
  intros Hi. unfold __getitem__.
  rewrite (list_getitem_nonneg (examples self) i Hi).
  rewrite (list_getitem_nonneg (masks self) i Hi).
  destruct item as [e m]. cbn [fst snd].
  destruct (examples self !! Z.to_nat i) as [e'|]; cbn [mbind res_bind].
  2: { split; [done|by intros [? _]]. }
  destruct (LongTensor e') as [e''|err] eqn:HLe; cbn [mbind res_bind].
  2: { split; [done|]. intros ([= ->] & _ & He & _).
       assert (LongTensor e = Ok e) by (by apply LongTensor_Ok).
       congruence. }
  apply LongTensor_Ok in HLe as [-> He].
  destruct (masks self !! Z.to_nat i) as [m'|]; cbn [mbind res_bind].
  2: { split; [done|by intros (_ & ? & _)]. }
  destruct (LongTensor m') as [m''|err] eqn:HLm;
    cbn [mbind res_bind mret res_ret].
  2: { split; [done|]. intros (_ & [= ->] & _ & Hm).
       assert (LongTensor m = Ok m) by (by apply LongTensor_Ok).
       congruence. }
  apply LongTensor_Ok in HLm as [-> Hm].
  split.
  - intros [= <- <-]. done.
  - intros ([= ->] & [= ->] & _). done.
Qed.

(** X21. A dataset answers every index from 0 to its length (excluded)
    exactly when it holds at least as many masks as rows, and the
    values of the rows, and of the masks that go with them, are of the
    64-bit range; what it answers at such an index is the row and the
    mask at that place; an index beyond the number of rows, on either
    side, raises [IndexError]. *)
Theorem dataset_getitem (self : LineByLineTextDataset) :
  ((∀ i, 0 ≤ i < __len__ self → ∃ item, __getitem__ self i = Ok item) ↔
   (length (examples self) ≤ length (masks self))%nat ∧
   Forall (Forall Tensor.int64) (examples self) ∧
   Forall (Forall Tensor.int64)
          (take (length (examples self)) (masks self))) ∧
  (∀ i example mask,
     0 ≤ i → __getitem__ self i = Ok (example, mask) →
     i < __len__ self ∧
     examples self !! Z.to_nat i = Some example ∧
     masks self !! Z.to_nat i = Some mask) ∧
  (∀ i, i < - __len__ self ∨ __len__ self ≤ i →
     __getitem__ self i = Raise (IndexError "list index out of range")).
Proof.
  unfold __len__. split; [split|split].
  - intros Hall.
    assert (Hget : ∀ j, (j < length (examples self))%nat →
              ∃ e m, examples self !! j = Some e ∧ masks self !! j = Some m ∧
                     Forall Tensor.int64 e ∧ Forall Tensor.int64 m).
    { intros j Hj. destruct (Hall (Z.of_nat j)) as [[e m] Hitem]; [lia|].
      apply getitem_nonneg in Hitem; [|lia]. rewrite Nat2Z.id in Hitem.
      exists e, m. done. }
    split; [|split].
    + destruct (decide (length (examples self) ≤ length (masks self))%nat)
        as [|Hlt]; [done|].
      destruct (Hget (length (masks self))) as (e & m & _ & Hm & _); [lia|].
      apply lookup_lt_Some in Hm. lia.
    + apply Forall_lookup. intros j e He.
      destruct (Hget j) as (e' & m & He' & _ & Hint & _).
      { by eapply lookup_lt_Some. }
      congruence.
    + apply Forall_lookup. intros j m Hm.
      apply lookup_take_Some in Hm as [Hm Hj].
      destruct (Hget j Hj) as (e & m' & _ & Hm' & _ & Hint). congruence.
  - intros (Hlen & He & Hm) i Hi.
    destruct (lookup_lt_is_Some_2 (examples self) (Z.to_nat i)) as [e Hie];
      [lia|].
    destruct (lookup_lt_is_Some_2 (masks self) (Z.to_nat i)) as [m Him];
      [lia|].
    exists (e, m). apply getitem_nonneg; [lia|]. cbn [fst snd].
    split; [done|]. split; [done|]. split.
    + by eapply (Forall_lookup_1 _ (examples self)).
    + eapply (Forall_lookup_1 _ (take _ (masks self))); [exact Hm|].
      apply lookup_take_Some. split; [exact Him|lia].
  - intros i e m Hi Hitem. apply getitem_nonneg in Hitem; [|done].
    cbn [fst snd] in Hitem. destruct Hitem as (He & Hm & _).
    split; [|done]. apply lookup_lt_Some in He. lia.
  - intros i Hi. unfold __getitem__.
    assert (He : list_getitem (examples self) i
                 = Raise (IndexError "list index out of range")).
    { unfold list_getitem. cbv zeta.
      destruct (bool_decide (i < 0)) eqn:Hneg.
      - apply bool_decide_eq_true in Hneg.
        by rewrite bool_decide_false by lia.
      - apply bool_decide_eq_false in Hneg.
        by rewrite bool_decide_false by lia. }
    by rewrite He.
Qed.

(** Two rows with their masks: every index below 2 is answered, -1 is
    the last place, 2 is out of range; one mask short, or a value
    outside the 64-bit range, and the place is not answered. *)
Lemma dataset_getitem_example :
  (∀ i, 0 ≤ i < __len__ (mk_dataset [[5; 6]; [7; 0]] [[1; 1]; [1; 0]]) →
     ∃ item,
       __getitem__ (mk_dataset [[5; 6]; [7; 0]] [[1; 1]; [1; 0]]) i = Ok item)
  ∧ __getitem__ (mk_dataset [[5; 6]; [7; 0]] [[1; 1]; [1; 0]]) 1
    = Ok ([7; 0], [1; 0])
  ∧ __getitem__ (mk_dataset [[5; 6]; [7; 0]] [[1; 1]; [1; 0]]) (-1)
    = Ok ([7; 0], [1; 0])
  ∧ __getitem__ (mk_dataset [[5; 6]; [7; 0]] [[1; 1]; [1; 0]]) 2
    = Raise (IndexError "list index out of range")
  ∧ __getitem__ (mk_dataset [[5; 6]; [7; 0]] [[1; 1]]) 1
    = Raise (IndexError "list index out of range")
  ∧ (∀ item,
       __getitem__ (mk_dataset [[5; 6]; [7; 2 ^ 63]] [[1; 1]; [1; 0]]) 1
       ≠ Ok item).
Proof.
  split; [|repeat split; try (intros item); vm_compute;
            (reflexivity || discriminate)].
  apply (proj2 (proj1 (dataset_getitem
                         (mk_dataset [[5; 6]; [7; 0]] [[1; 1]; [1; 0]])))).
  split; [cbn; lia|].
  split; repeat constructor; unfold Tensor.int64; lia.
Defined.

End LineByLineMore.

(** ** Setting up a [TrainingAgent]: the constructor never returns *)

Module TrainSetupFacts.
Import TrainSetup PyFacts.

Lemma triple_bind {A B} P (m : M instance A) (k : A → M instance B) Q R E :
  triple P m Q E → (∀ a, triple (Q a) (k a) R E) → triple P (m ≫= k) R E.
Proof.
  intros Hm Hk σ Hσ. rewrite run_bind. specialize (Hm σ Hσ).
  destruct (m σ) as [[a|e] σ']; [|done]. by apply Hk.
Qed.

Lemma triple_weaken {A} (P : instance → Prop) (m : M instance A)
    (Q Q' : A → instance → Prop) E :
  triple P m Q E → (∀ a σ, Q a σ → Q' a σ) → triple P m Q' E.
Proof.
  intros Hm HQ σ Hσ. specialize (Hm σ Hσ).
  destruct (m σ) as [[a|e] σ']; [by apply HQ|done].
Qed.

(** Statements that keep [no_loss_yet]. *)
Abbreviation keeps m := (triple no_loss_yet m (λ _, no_loss_yet) no_loss_yet).

Lemma keeps_ret {A} (a : A) : keeps (mret a).
Proof. by intros σ Hσ. Qed.

Lemma keeps_raise {A} e : keeps (raise e : M instance A).
Proof. by intros σ Hσ. Qed.

Lemma keeps_bind {A B} (m : M instance A) (k : A → M instance B) :
  keeps m → (∀ a, keeps (k a)) → keeps (m ≫= k).
Proof. intros Hm Hk. by eapply triple_bind. Qed.

Lemma keeps_getattr_self name : keeps (getattr_self name).
Proof.
  intros σ Hσ. unfold getattr_self.
  destruct (attrs σ !! name); [done|].
  destruct (assoc name class_data); [done|]. by case_bool_decide.
Qed.

Lemma keeps_setattr_self name v :
  name ≠ "get_loss" → keeps (setattr_self name v).
Proof.
  intros Hne σ [Hσ Hc]. split; [|done]. cbn. by rewrite lookup_insert_ne.
Qed.

Lemma keeps_getattr o name : keeps (getattr o name).
Proof.
  destruct o; try apply keeps_raise. cbn.
  destruct (assoc name fields); [apply keeps_ret|apply keeps_raise].
Qed.

Lemma keeps_call_external f args :
  f ≠ "create_dir" → keeps (call_external f args).
Proof.
  intros Hne σ [Hσ Hc]. split; [done|]. cbn.
  apply Forall_app. split; [done|]. by repeat constructor.
Qed.

Lemma keeps_call_method o method args :
  method ≠ "create_dir" → keeps (call_method o method args).
Proof.
  intros Hne. destruct o; try apply keeps_raise.
  by apply keeps_call_external.
Qed.

Lemma keeps_len len_made o : keeps (len len_made o).
Proof. destruct o; try apply keeps_raise; apply keeps_ret. Qed.

Lemma keeps_unpack2 o : keeps (unpack2 o).
Proof.
  destruct o as [| | |items| | |]; try apply keeps_raise; [|apply keeps_ret].
  destruct items as [|a [|b [|c items]]];
    try apply keeps_raise; apply keeps_ret.
Qed.

Lemma keeps_args_ group name : keeps (args_ group name).
Proof.
  unfold args_. apply keeps_bind; [apply keeps_getattr_self|]. intros a.
  apply keeps_bind; [apply keeps_getattr|]. intros g. apply keeps_getattr.
Qed.

Lemma keeps_args_top name : keeps (args_top name).
Proof.
  unfold args_top. apply keeps_bind; [apply keeps_getattr_self|].
  intros a. apply keeps_getattr.
Qed.

Lemma keeps_load_data_args src tgt fresh_tokenizer :
  keeps (load_data_args src tgt fresh_tokenizer).
Proof.
  unfold load_data_args.
  repeat (apply keeps_bind;
          [first [apply keeps_args_ | apply keeps_getattr_self
                 | destruct fresh_tokenizer;
                   [by apply keeps_call_external | apply keeps_ret]]
          |intros ?]).
  apply keeps_ret.
Qed.

(** Asking the instance for [get_loss] raises. *)
Lemma getattr_self_get_loss {B} (k : obj → M instance B) :
  triple no_loss_yet (getattr_self "get_loss" ≫= k) (λ _ _, False)
         no_loss_yet.
Proof.
  intros σ Hσ. rewrite run_bind. unfold getattr_self.
  destruct Hσ as [Hg Hc]. rewrite Hg. cbn. done.
Qed.

Lemma triple_keeps_bind {A B} (m : M instance A) (k : A → M instance B) R :
  keeps m → (∀ a, triple no_loss_yet (k a) R no_loss_yet) →
  triple no_loss_yet (m ≫= k) R no_loss_yet.
Proof. intros Hm Hk. by eapply triple_bind. Qed.

Lemma reset_triple len_made :
  triple no_loss_yet (reset len_made) (λ _ _, False) no_loss_yet.
Proof.
  unfold reset.
  repeat first
    [ apply getattr_self_get_loss
    | apply triple_keeps_bind;
      [ first [ apply keeps_getattr_self
              | apply keeps_args_ | apply keeps_args_top
              | apply keeps_load_data_args
              | apply keeps_len | apply keeps_unpack2
              | by apply keeps_setattr_self
              | by apply keeps_call_external
              | by apply keeps_call_method
              | case_bool_decide;
                [ apply keeps_bind; [apply keeps_getattr_self|]; intros ?;
                  apply keeps_bind; [by apply keeps_call_external|];
                  intros ?; by apply keeps_setattr_self
                | apply keeps_ret ] ]
      | intros ? ]
    | match goal with a : (obj * obj)%type |- _ => destruct a end ].
Qed.

End TrainSetupFacts.

Module TrainSetupMore.
Import TrainSetup PyFacts TrainSetupFacts.

(** X22. [TrainingAgent(args)] never returns: whatever the arguments,
    [__init__] stores them and [reset] raises [AttributeError] at its
    first statement, which reads [self.tokenizer] before anything has
    set it; no function of another module has been called. The same
    holds of [reset] on any instance without an attribute [tokenizer]:
    it raises at once and leaves the instance as it was. *)
Theorem init_raises len_made (args : obj) :
  __init__ len_made args new_instance
  = (Raise (AttributeError "tokenizer"),
     mk_instance {[ "args" := args ]} []) ∧
  ∀ σ, attrs σ !! "tokenizer" = None →
       reset len_made σ = (Raise (AttributeError "tokenizer"), σ).
Proof.
  split; [reflexivity|]. intros σ Hσ.
  unfold reset. rewrite run_bind. unfold getattr_self. by rewrite Hσ.
Qed.

(** X23. [reset] cannot run to its end on an instance that has no
    attribute [get_loss] of its own (the class defines no such method):
    it raises, and it does so before either call of [create_dir]. *)
Theorem reset_never_completes len_made (σ : instance) :
  attrs σ !! "get_loss" = None →
  Forall (λ c, c.1 ≠ "create_dir") (calls σ) →
  ∃ e, (reset len_made σ).1 = Raise e ∧
       attrs (reset len_made σ).2 !! "get_loss" = None ∧
       Forall (λ c, c.1 ≠ "create_dir") (calls (reset len_made σ).2).
Proof.
  intros Hg Hc. pose proof (reset_triple len_made σ (conj Hg Hc)) as H.
  destruct (reset len_made σ) as [[[]|e] σ']; [done|].
  exists e. by destruct H.
Qed.

Lemma reset_never_completes_example :
  ∃ e, (reset (λ _ _, 10)
          (mk_instance {[ "args" := toy_args;
                          "tokenizer" := OStr "gpt2" ]} [])).1 = Raise e ∧
       attrs (reset (λ _ _, 10)
                (mk_instance {[ "args" := toy_args;
                                "tokenizer" := OStr "gpt2" ]} [])).2
         !! "get_loss" = None ∧
       Forall (λ c, c.1 ≠ "create_dir")
              (calls (reset (λ _ _, 10)
                        (mk_instance {[ "args" := toy_args;
                                        "tokenizer" := OStr "gpt2" ]}
                                     [])).2).
Proof.
  apply (reset_never_completes (λ _ _, 10)).
  - vm_compute. reflexivity.
  - constructor.
Defined.

End TrainSetupMore.
